(** * Transcript serializers of [pages/Transcribe.py]

    A shallow embedding of [format_time], [create_srt_content],
    [create_vtt_content] and [create_tsv_content], together with the part of
    Python they run on: dictionaries with string keys, dynamically typed
    values, exceptions, floor division and modulo, [int()], the [02d] format
    specification and [csv.writer]. *)

From Stdlib Require Import ZArith QArith Qround Qabs String Ascii List Lia Lqa.
From Stdlib Require Import DecimalString DecimalN DecimalFacts.
From stdpp Require Import base option list gmap strings.

Local Open Scope Z_scope.
Local Open Scope string_scope.

(** ** Python values *)

Module Py.

(** A finite float is kept by its exact value, a rational.  The operations
    below round as the interpreter does, to the nearest double and to the
    even one of two that are equally near, so that on the value of a double
    they give the value of the double the interpreter computes.  Overflow
    to an infinity is left out: [format_time] divides a float and adds a
    small constant to a remainder, and the results are no larger than the
    operand. *)
Inductive pyfloat : Type :=
  | FFinite (q : Q)
  | FInf (negative : bool)
  | FNaN.

Inductive pynum : Type :=
  | NInt (z : Z)
  | NFloat (f : pyfloat).

(** The values found in a segment: numbers and strings.  A [str] is kept as
    the bytes of its UTF-8 encoding; the characters the serializers and the
    CSV writer look for are all ASCII. *)
Inductive pyval : Type :=
  | PyNum (x : pynum)
  | PyStr (s : string).

(** Exceptions carry the name of their class and one argument. *)
Inductive pyexc : Type :=
  | Exc (cls : string) (arg : string).

Definition KeyError (key : string) : pyexc := Exc "KeyError" key.
Definition TypeError (msg : string) : pyexc := Exc "TypeError" msg.
Definition ValueError (msg : string) : pyexc := Exc "ValueError" msg.
Definition OverflowError (msg : string) : pyexc := Exc "OverflowError" msg.

Inductive result (A : Type) : Type :=
  | Ok (a : A)
  | Raise (e : pyexc).

Arguments Ok {A} a.
Arguments Raise {A} e.

Definition bind {A B : Type} (m : result A) (k : A -> result B) : result B :=
  match m with
  | Ok a => k a
  | Raise e => Raise e
  end.

Definition returns {A : Type} (m : result A) : Prop := exists a, m = Ok a.

End Py.

Import Py.

#[global] Instance result_ret : MRet result := @Ok.
#[global] Instance result_bind : MBind result := fun A B k m => bind m k.

(** ** Dictionaries *)

(** [d[key]] *)
Definition getitem (d : gmap string pyval) (key : string) : result pyval :=
  match d !! key with
  | Some v => Ok v
  | None => Raise (KeyError key)
  end.

(** ** Arithmetic *)

(** The left operand of the first [//]: a [str] has no floor division. *)
Definition number (v : pyval) : result pynum :=
  match v with
  | PyNum x => Ok x
  | PyStr _ => Raise (TypeError "unsupported operand type(s) for //: 'str' and 'int'")
  end.

(** Truncation towards zero. *)
Definition Qtruncate (q : Q) : Z :=
  if Qle_bool 0 q then Qfloor q else Qceiling q.

(** [2^k] for an integer [k] of either sign. *)
Definition Qpow2 (k : Z) : Q :=
  if (0 <=? k)%Z then inject_Z (2 ^ k) else / inject_Z (2 ^ (- k)).

(** The integer nearest to [q], the even one of two that are equally
    near. *)
Definition round_half_even (q : Q) : Z :=
  let f := Qfloor q in
  match (q - inject_Z f ?= 1 # 2)%Q with
  | Lt => f
  | Gt => f + 1
  | Eq => if Z.even f then f else f + 1
  end.

(** The [e] with [2^e <= q < 2^(e+1)], for a positive [q]. *)
Definition binade (q : Q) : Z :=
  let e := Z.log2 (Qnum q) - Z.log2 (Z.pos (Qden q)) in
  if Qle_bool (Qpow2 e) q then e else e - 1.

(** The double nearest to [q]: 53 significant bits, and multiples of
    [2^-1074] below [2^-1022]. *)
Definition round_double (q : Q) : Q :=
  if Qeq_bool q 0 then 0%Q
  else
    let k := Z.max (binade (Qabs q) - 52) (-1074) in
    let n := round_half_even (Qabs q / Qpow2 k) in
    if Qle_bool 0 q then (inject_Z n * Qpow2 k)%Q else (- (inject_Z n * Qpow2 k))%Q.

(** C's [fmod(q, d)]: exact, with the sign of [q]. *)
Definition fmod (q : Q) (d : Z) : Q :=
  (q - inject_Z d * inject_Z (Qtruncate (q / inject_Z d)))%Q.

(** The quotient snapped to an integral value, the last step of the
    interpreter's float division with remainder. *)
Definition snap (div : Q) : Q :=
  if Qeq_bool div 0 then 0%Q
  else
    let floordiv := inject_Z (Qfloor div) in
    if Qle_bool (div - floordiv) (1 # 2) then floordiv
    else round_double (floordiv + 1).

(** [f // d] and [f % d] for a float [f] and a positive [int] constant [d],
    which the interpreter converts to a float without loss.  The remainder
    starts from [fmod]; a negative one has the divisor added, which rounds.
    The quotient is [(f - fmod) / d], each step rounded, less 1 when the
    remainder was negative, then snapped. *)
Definition float_floordiv (f : pyfloat) (d : Z) : pyfloat :=
  match f with
  | FFinite q =>
      let mod_ := fmod q d in
      let div := round_double (round_double (q - mod_) / inject_Z d) in
      FFinite (snap (if Qle_bool 0 mod_ then div else round_double (div - 1)))
  | FInf _ | FNaN => FNaN
  end.

Definition float_mod (f : pyfloat) (d : Z) : pyfloat :=
  match f with
  | FFinite q =>
      let mod_ := fmod q d in
      FFinite (if Qle_bool 0 mod_ then mod_ else round_double (mod_ + inject_Z d))
  | FInf _ | FNaN => FNaN
  end.

(** [x // d] and [x % d] for a positive [int] constant [d]. *)
Definition floordiv (x : pynum) (d : Z) : pynum :=
  match x with
  | NInt z => NInt (z / d)
  | NFloat f => NFloat (float_floordiv f d)
  end.

Definition modulo (x : pynum) (d : Z) : pynum :=
  match x with
  | NInt z => NInt (z mod d)
  | NFloat f => NFloat (float_mod f d)
  end.

(** [x * k]; in [format_time] the left operand is an [int]. *)
Definition mul (x : pynum) (k : Z) : pynum :=
  match x with
  | NInt z => NInt (z * k)
  | NFloat (FFinite q) => NFloat (FFinite (round_double (q * inject_Z k)))
  | NFloat f => NFloat f
  end.

(** [int(x)] *)
Definition int (x : pynum) : result Z :=
  match x with
  | NInt z => Ok z
  | NFloat (FFinite q) => Ok (Qtruncate q)
  | NFloat (FInf _) => Raise (OverflowError "cannot convert float infinity to integer")
  | NFloat FNaN => Raise (ValueError "cannot convert float NaN to integer")
  end.

(** ** Formatting *)

Definition decimal (n : N) : string := NilEmpty.string_of_uint (N.to_uint n).

Fixpoint zeros (n : nat) : string :=
  match n with
  | O => ""
  | S n' => String "0" (zeros n')
  end.

(** [format(z, "0{width}d")]: the sign, then zeros up to the width, then the
    digits. *)
Definition format_0d (width : nat) (z : Z) : string :=
  let sign := if (z <? 0)%Z then "-" else "" in
  let digits := decimal (Z.abs_N z) in
  sign ++ zeros (width - String.length sign - String.length digits)%nat ++ digits.

(** [str(z)] *)
Definition str_int (z : Z) : string := format_0d 0 z.

(** ** [format_time] *)

(** The local variables at the [return]: [hours], [minutes], [seconds]
    (rebound to an [int] on the third line) and [milliseconds]. *)
Definition format_time_locals (seconds : pyval) : result (Z * Z * Z * Z) :=
  x ← number seconds;
  hours ← int (floordiv x 3600);
  minutes ← int (floordiv (modulo x 3600) 60);
  seconds ← int (modulo x 60);
  milliseconds ← int (mul (modulo (NInt seconds) 1) 1000);
  Ok (hours, minutes, seconds, milliseconds).

Definition format_time (seconds : pyval) : result string :=
  '(hours, minutes, seconds, milliseconds) ← format_time_locals seconds;
  Ok (format_0d 2 hours ++ ":" ++ format_0d 2 minutes ++ ":" ++ format_0d 2 seconds).

(** ** Control characters *)

Definition TAB : ascii := "009"%char.
Definition LF : ascii := "010"%char.
Definition CR : ascii := "013"%char.
Definition DQUOTE : ascii := "034"%char.

Definition nl : string := String LF "".

(** ** Loops *)

(** [enumerate(xs, start)] *)
Fixpoint enumerate {A : Type} (xs : list A) (start : Z) : list (Z * A) :=
  match xs with
  | [] => []
  | x :: rest => (start, x) :: enumerate rest (start + 1)
  end.

(** [for x in xs: body], the loop body updating the state [s]; an
    exception leaves the loop. *)
Fixpoint for_in {A S : Type} (xs : list A) (body : A -> S -> result S) (s : S)
  : result S :=
  match xs with
  | [] => Ok s
  | x :: rest => s' ← body x s; for_in rest body s'
  end.

(** ** [csv.writer] *)

Module csv.

(** The [excel] dialect: [quotechar] is the double quote, [doublequote] is
    set, there is no [escapechar], [lineterminator] is CR LF and [quoting] is
    [QUOTE_MINIMAL].  The caller chooses the delimiter. *)
Definition quotechar : ascii := DQUOTE.
Definition lineterminator : string := String CR (String LF "").

Definition in_string (c : ascii) (s : string) : bool :=
  existsb (Ascii.eqb c) (list_ascii_of_string s).

(** The characters that make [QUOTE_MINIMAL] quote a field. *)
Definition special (delimiter c : ascii) : bool :=
  Ascii.eqb c delimiter || Ascii.eqb c quotechar || in_string c lineterminator.

(** The copy of a field into the record: a quote character is doubled; the
    flag tells whether some character asked for quotes. *)
Fixpoint join_append_data (delimiter : ascii) (field : string) : string * bool :=
  match field with
  | EmptyString => (EmptyString, false)
  | String c rest =>
      let '(copied, quoted) := join_append_data delimiter rest in
      if special delimiter c
      then (if Ascii.eqb c quotechar
            then String quotechar (String c copied)
            else String c copied, true)
      else (String c copied, quoted)
  end.

Definition join_append (delimiter : ascii) (field : string) : string :=
  let '(copied, quoted) := join_append_data delimiter field in
  if quoted then String quotechar (copied ++ String quotechar "") else copied.

Fixpoint join (delimiter : ascii) (fields : list string) : string :=
  match fields with
  | [] => ""
  | [f] => f
  | f :: rest => f ++ String delimiter (join delimiter rest)
  end.

(** The record of one row; a row of one empty field is written as two
    quote characters. *)
Definition record (delimiter : ascii) (row : list string) : string :=
  let rec := join delimiter (map (join_append delimiter) row) in
  match row, rec with
  | _ :: _, EmptyString => String quotechar (String quotechar "")
  | _, _ => rec
  end.

(** [writer.writerow(row)] on the text written so far. *)
Definition writerow (delimiter : ascii) (row : list string) (output : string)
  : string :=
  output ++ record delimiter row ++ lineterminator.

End csv.

(** ** The serializers *)

Section Serializers.

(** [str()] of a float: its shortest decimal that reads back, which the
    exact value alone does not determine here. *)
Variable str_float : pyfloat -> string.

(** [str(v)] *)
Definition str (v : pyval) : string :=
  match v with
  | PyStr s => s
  | PyNum (NInt z) => str_int z
  | PyNum (NFloat f) => str_float f
  end.

Definition create_srt_content (segments : list (gmap string pyval))
  : result string :=
  let srt_content := "" in
  for_in (enumerate segments 1)
    (fun '(i, segment) srt_content =>
       v ← getitem segment "start";
       t ← format_time v;
       let start := t ++ ",000" in
       v ← getitem segment "end";
       t ← format_time v;
       let end_ := t ++ ",000" in
       text ← getitem segment "text";
       Ok (srt_content ++ str_int i ++ nl ++ start ++ " --> " ++ end_ ++ nl
             ++ str text ++ nl ++ nl))
    srt_content.

Definition create_vtt_content (segments : list (gmap string pyval))
  : result string :=
  let vtt_content := "WEBVTT" ++ nl ++ nl in
  for_in (enumerate segments 1)
    (fun '(i, segment) vtt_content =>
       v ← getitem segment "start";
       start ← format_time v;
       v ← getitem segment "end";
       end_ ← format_time v;
       text ← getitem segment "text";
       Ok (vtt_content ++ start ++ ".000 --> " ++ end_ ++ ".000" ++ nl
             ++ str text ++ nl ++ nl))
    vtt_content.

Definition create_tsv_content (segments : list (gmap string pyval))
  : result string :=
  let output := "" in
  let output := csv.writerow TAB ["Start"; "End"; "Text"] output in
  for_in segments
    (fun segment output =>
       v ← getitem segment "start";
       start ← format_time v;
       v ← getitem segment "end";
       end_ ← format_time v;
       text ← getitem segment "text";
       Ok (csv.writerow TAB [start; end_; str text] output))
    output.

End Serializers.

(** ** Segments *)

Definition flt (q : Q) : pyval := PyNum (NFloat (FFinite q)).
Definition itg (z : Z) : pyval := PyNum (NInt z).

(** A segment dictionary with the three keys the serializers read. *)
Definition segment_of (start end_ : pyval) (text : string) : gmap string pyval :=
  <["start" := start]> (<["end" := end_]> (<["text" := PyStr text]> ∅)).

(** A number of seconds: an [int] or a finite [float]. *)
Definition timestamp (v : pyval) : bool :=
  match v with
  | PyNum (NInt _) | PyNum (NFloat (FFinite _)) => true
  | _ => false
  end.

Definition negative (v : pyval) : bool :=
  match v with
  | PyNum (NInt z) => (z <? 0)%Z
  | PyNum (NFloat (FFinite q)) => (Qnum q <? 0)%Z
  | PyNum (NFloat (FInf s)) => s
  | _ => false
  end.

(** The whole seconds of a timestamp. *)
Definition whole_seconds (v : pyval) : Z :=
  match v with
  | PyNum (NInt z) => z
  | PyNum (NFloat (FFinite q)) => Qfloor q
  | _ => 0
  end.

(** A segment as the recognition engine gives it: numbers under [start] and
    [end], a [str] under [text]. *)
Definition well_formed (segment : gmap string pyval) : bool :=
  match segment !! "start", segment !! "end", segment !! "text" with
  | Some a, Some b, Some (PyStr _) => timestamp a && timestamp b
  | _, _, _ => false
  end.

(** The digits of an [int] that the interpreter converts to a [str]: beyond
    its default limit of 4300 digits it raises [ValueError] instead.
    [format_0d] and [str_int] write an [int] of any size; the properties
    that say a string is returned ask for values within the limit: a
    [float], a [str], or an [int] of at most 4300 digits. *)
Definition int_max_str_digits : Z := 4300.

Definition printable (v : pyval) : bool :=
  match v with
  | PyNum (NInt z) => (Z.abs z <? 10 ^ int_max_str_digits)%Z
  | _ => true
  end.

Definition within_limit (segment : gmap string pyval) : bool :=
  forallb
    (fun key => match segment !! key with Some v => printable v | None => true end)
    ["start"; "end"; "text"].

(** The value of a string of decimal digits. *)
Definition decimal_value (s : string) : option N :=
  N.of_uint <$> NilEmpty.uint_of_string s.

(** The strings a well-formed segment contributes to a cue or a row: the
    formatted [start], the formatted [end] and the text. *)
Definition cue_fields (segment : gmap string pyval) (a b text : string) : Prop :=
  exists start end_ : pyval,
    segment !! "start" = Some start /\ segment !! "end" = Some end_ /\
    segment !! "text" = Some (PyStr text) /\
    format_time start = Ok a /\ format_time end_ = Ok b.

Definition srt_block (i : Z) (a b text : string) : string :=
  str_int i ++ nl ++ (a ++ ",000") ++ " --> " ++ (b ++ ",000") ++ nl
    ++ text ++ nl ++ nl.

Definition vtt_cue (a b text : string) : string :=
  a ++ ".000 --> " ++ b ++ ".000" ++ nl ++ text ++ nl ++ nl.

(** ** The TSV grid, as a consumer reads it *)

(** What [QUOTE_MINIMAL] does to a field, said in two steps: whether the
    field holds a delimiter, a quote or a line-terminator character, and the
    field with every quote character doubled. *)
Fixpoint needs_quotes (delimiter : ascii) (field : string) : bool :=
  match field with
  | EmptyString => false
  | String c rest => csv.special delimiter c || needs_quotes delimiter rest
  end.

Fixpoint double_quotes (field : string) : string :=
  match field with
  | EmptyString => EmptyString
  | String c rest =>
      if Ascii.eqb c DQUOTE
      then String DQUOTE (String DQUOTE (double_quotes rest))
      else String c (double_quotes rest)
  end.

Definition quoted_field (delimiter : ascii) (field : string) : string :=
  if needs_quotes delimiter field
  then String DQUOTE (double_quotes field ++ String DQUOTE "")
  else field.

Definition tab : string := String TAB "".

Definition tsv_header : string :=
  "Start" ++ tab ++ "End" ++ tab ++ "Text" ++ csv.lineterminator.

Definition tsv_row (a b text : string) : string :=
  a ++ tab ++ b ++ tab ++ quoted_field TAB text ++ csv.lineterminator.

(** [s.split(sep)] for a one-character separator. *)
Fixpoint split_on (sep : ascii) (s : string) : list string :=
  match s with
  | EmptyString => [EmptyString]
  | String c rest =>
      if Ascii.eqb c sep then EmptyString :: split_on sep rest
      else match split_on sep rest with
           | field :: fields => String c field :: fields
           | [] => [String c EmptyString]
           end
  end.

Definition push_char (c : ascii) (ls : list string) : list string :=
  match ls with
  | l :: ls' => String c l :: ls'
  | [] => [String c EmptyString]
  end.

(** The lines of a text whose lines end with LF. *)
Fixpoint lines (s : string) : list string :=
  match s with
  | EmptyString => []
  | String c rest =>
      if Ascii.eqb c LF then EmptyString :: lines rest
      else push_char c (lines rest)
  end.

(** The lines of a text whose lines end with CR LF. *)
Fixpoint lines_crlf (s : string) : list string :=
  match s with
  | EmptyString => []
  | String c rest =>
      match rest with
      | String c' rest' =>
          if Ascii.eqb c CR && Ascii.eqb c' LF
          then EmptyString :: lines_crlf rest'
          else push_char c (lines_crlf rest)
      | EmptyString => [String c EmptyString]
      end
  end.

(** Rows split on newlines, fields split on tabs. *)
Definition grid_lf (content : string) : list (list string) :=
  map (split_on TAB) (lines content).

Definition grid_crlf (content : string) : list (list string) :=
  map (split_on TAB) (lines_crlf content).

(** The text of a segment holds none of tab, CR, LF and the double quote. *)
Definition plain_text (segment : gmap string pyval) : bool :=
  match segment !! "text" with
  | Some (PyStr text) => negb (needs_quotes TAB text)
  | _ => false
  end.

(** The text of a segment holds neither a tab nor a newline. *)
Fixpoint has_tab_or_newline (text : string) : bool :=
  match text with
  | EmptyString => false
  | String c rest =>
      Ascii.eqb c TAB || Ascii.eqb c LF || has_tab_or_newline rest
  end.

Definition no_tab_or_newline (segment : gmap string pyval) : bool :=
  match segment !! "text" with
  | Some (PyStr text) => negb (has_tab_or_newline text)
  | _ => false
  end.

(** A grid read from the TSV output gives back the header and, for each
    segment in order, its formatted start, its formatted end and its text. *)
Definition tsv_round_trip (str_float : pyfloat -> string)
    (grid : string -> list (list string))
    (segments : list (gmap string pyval)) : Prop :=
  exists (content : string) (rows : list (list string)),
    create_tsv_content str_float segments = Ok content /\
    Forall2 (fun segment row =>
               exists a b text, cue_fields segment a b text /\ row = [a; b; text])
            segments rows /\
    grid content = ["Start"; "End"; "Text"] :: rows.

Fixpoint has_char (c : ascii) (s : string) : bool :=
  match s with
  | EmptyString => false
  | String c' rest => Ascii.eqb c' c || has_char c rest
  end.

(** ** A reader that honours the quotes *)

(** The consumer that [csv.writer]'s quoting is written for: [csv.reader]
    with the same dialect over the whole text (opened with [newline='']),
    one character at a time.  The states are those of its parser; a line
    ends at LF, at CR LF or at a lone CR. *)
Inductive reader_state : Type :=
  | START_RECORD
  | START_FIELD
  | IN_FIELD
  | IN_QUOTED_FIELD
  | QUOTE_IN_QUOTED_FIELD
  | AFTER_CR.

(** What a character does to the record being read. *)
Inductive reader_action : Type :=
  | AddChar (c : ascii)
  | SaveField
  | SaveRecord
  | EmptyRecord
  | Skip.

Definition start_field (delimiter c : ascii) : reader_action * reader_state :=
  if Ascii.eqb c CR then (SaveRecord, AFTER_CR)
  else if Ascii.eqb c LF then (SaveRecord, START_RECORD)
  else if Ascii.eqb c csv.quotechar then (Skip, IN_QUOTED_FIELD)
  else if Ascii.eqb c delimiter then (SaveField, START_FIELD)
  else (AddChar c, IN_FIELD).

Definition start_record (delimiter c : ascii) : reader_action * reader_state :=
  if Ascii.eqb c CR then (EmptyRecord, AFTER_CR)
  else if Ascii.eqb c LF then (EmptyRecord, START_RECORD)
  else start_field delimiter c.

Definition reader_step (delimiter : ascii) (st : reader_state) (c : ascii)
  : reader_action * reader_state :=
  match st with
  | START_RECORD => start_record delimiter c
  | AFTER_CR =>
      if Ascii.eqb c LF then (Skip, START_RECORD) else start_record delimiter c
  | START_FIELD => start_field delimiter c
  | IN_FIELD =>
      if Ascii.eqb c CR then (SaveRecord, AFTER_CR)
      else if Ascii.eqb c LF then (SaveRecord, START_RECORD)
      else if Ascii.eqb c delimiter then (SaveField, START_FIELD)
      else (AddChar c, IN_FIELD)
  | IN_QUOTED_FIELD =>
      if Ascii.eqb c csv.quotechar then (Skip, QUOTE_IN_QUOTED_FIELD)
      else (AddChar c, IN_QUOTED_FIELD)
  | QUOTE_IN_QUOTED_FIELD =>
      if Ascii.eqb c csv.quotechar then (AddChar c, IN_QUOTED_FIELD)
      else if Ascii.eqb c delimiter then (SaveField, START_FIELD)
      else if Ascii.eqb c CR then (SaveRecord, AFTER_CR)
      else if Ascii.eqb c LF then (SaveRecord, START_RECORD)
      else (AddChar c, IN_FIELD)
  end.

(** The rows read from the rest of the text start with the rest of the
    current record, and that with the rest of the current field. *)
Definition push_string (s : string) (rows : list (list string))
  : list (list string) :=
  match rows with
  | (field :: fields) :: rest => ((s ++ field) :: fields) :: rest
  | _ => rows
  end.

Definition save_field (rows : list (list string)) : list (list string) :=
  match rows with
  | fields :: rest => (EmptyString :: fields) :: rest
  | [] => [[EmptyString]]
  end.

Definition perform (a : reader_action) (rows : list (list string))
  : list (list string) :=
  match a with
  | AddChar c => push_string (String c EmptyString) rows
  | SaveField => save_field rows
  | SaveRecord => [EmptyString] :: rows
  | EmptyRecord => [] :: rows
  | Skip => rows
  end.

Fixpoint read_from (delimiter : ascii) (st : reader_state) (s : string)
  : list (list string) :=
  match s with
  | EmptyString =>
      match st with
      | START_RECORD | AFTER_CR => []
      | _ => [[EmptyString]]
      end
  | String c rest =>
      let '(a, st') := reader_step delimiter st c in
      perform a (read_from delimiter st' rest)
  end.

Definition read_rows (delimiter : ascii) (content : string) : list (list string) :=
  read_from delimiter START_RECORD content.

(** The text [csv.writer] leaves after writing the rows to an empty
    stream. *)
Definition written (delimiter : ascii) (rows : list (list string)) : string :=
  String.concat ""
    (map (fun row => csv.record delimiter row ++ csv.lineterminator) rows).

(** After a field comes a tab or the CR of the line end; the three states
    a field can end in treat them alike. *)
Definition ends_field (rest : string) : Prop :=
  exists c rest', rest = String c rest' /\ (c = TAB \/ c = CR).

(** ** Errors the specification names *)

(** No code raises these two; they stand for the error classes of the
    specification. *)
Definition MalformedResult (field : string) : pyexc := Exc "MalformedResult" field.
Definition InvalidTimestamp (arg : string) : pyexc := Exc "InvalidTimestamp" arg.

(** The key a serializer finds missing in a segment: [start] is read first,
    then [end], then [text], and a present [start] or [end] has to pass
    [format_time] for the next key to be read. *)
Definition missing_key (segment : gmap string pyval) : option string :=
  match segment !! "start" with
  | None => Some "start"
  | Some a =>
      if timestamp a then
        match segment !! "end" with
        | None => Some "end"
        | Some b =>
            if timestamp b then
              match segment !! "text" with
              | None => Some "text"
              | Some _ => None
              end
            else None
        end
      else None
  end.

(** Where no float is printed, how a float prints does not matter. *)
Definition no_float : pyfloat -> string := fun _ => "".

(** The grid read from the TSV output has the header and one row for each
    segment, and every row has three fields. *)
Definition tsv_grid_shape (str_float : pyfloat -> string)
    (grid : string -> list (list string))
    (segments : list (gmap string pyval)) : Prop :=
  exists content : string,
    create_tsv_content str_float segments = Ok content /\
    length (grid content) = S (length segments) /\
    Forall (fun row => length row = 3%nat) (grid content).

(** ** Sample segments *)

Definition hello_world : list (gmap string pyval) :=
  [segment_of (itg 0) (flt 2.5) "Hello"; segment_of (flt 2.5) (itg 5) "world"].

Definition segment_without_start : gmap string pyval :=
  delete "start" (segment_of (flt 0) (flt 1) "Hi").

Definition segment_without_end : gmap string pyval :=
  delete "end" (segment_of (flt 0) (flt 1) "Hi").

(** A segment that starts at NaN. *)
Definition segment_from_nan : gmap string pyval :=
  segment_of (PyNum (NFloat FNaN)) (flt 1) "Hi".

(** End before start, a negative start, starts out of order. *)
Definition disordered : list (gmap string pyval) :=
  [segment_of (flt 7.25) (flt 3) "late"; segment_of (itg (-4)) (flt 1.5) "early"].

(** Texts that [QUOTE_MINIMAL] quotes: one with a tab, one with double
    quotes and a newline. *)
Definition quoted_texts : list (gmap string pyval) :=
  [segment_of (itg 0) (flt 1.5) ("a" ++ tab ++ "b");
   segment_of (flt 1.5) (itg 3)
     (String DQUOTE ("hi" ++ String DQUOTE (nl ++ "there")))].

(** * The rest of the pages *)

(** ** More of [str] and [os.path] *)

(** [s.find(sub)], with [None] for -1. *)
Fixpoint str_find (sub s : string) : option nat :=
  if String.prefix sub s then Some O
  else match s with
       | EmptyString => None
       | String _ rest => S <$> str_find sub rest
       end.

(** [s.replace(old, new)] for a non-empty [old]: the occurrences are taken
    from the left and do not overlap; [skip] counts the characters of the
    occurrence just replaced that are still to be passed over. *)
Fixpoint replace_from (old new : string) (skip : nat) (s : string) : string :=
  match s with
  | EmptyString => EmptyString
  | String c rest =>
      match skip with
      | S skip' => replace_from old new skip' rest
      | O =>
          if String.prefix old s
          then new ++ replace_from old new (String.length old - 1) rest
          else String c (replace_from old new 0 rest)
      end
  end.

(** A [str] is held as its UTF-8 encoding, where a byte of the form
    [10xxxxxx] continues the character begun before it. *)
Definition continuation (c : ascii) : bool :=
  match c with
  | Ascii _ _ _ _ _ _ false true => true
  | _ => false
  end.

(** With an empty [old], [new] goes before every character and at the
    end. *)
Fixpoint replace_empty (new s : string) : string :=
  match s with
  | EmptyString => new
  | String c rest =>
      if continuation c then String c (replace_empty new rest)
      else new ++ String c (replace_empty new rest)
  end.

Definition str_replace (s old new : string) : string :=
  match old with
  | EmptyString => replace_empty new s
  | String _ _ => replace_from old new 0 s
  end.

(** [s.rfind(c)] for one character, as Python counts: -1 when there is
    none. *)
Fixpoint rfind_nat (c : ascii) (s : string) : option nat :=
  match s with
  | EmptyString => None
  | String a rest =>
      match rfind_nat c rest with
      | Some i => Some (S i)
      | None => if Ascii.eqb a c then Some O else None
      end
  end.

Definition rfind (c : ascii) (s : string) : Z :=
  match rfind_nat c s with
  | Some i => Z.of_nat i
  | None => -1
  end.

(** [s[i:j]] for indices within the string. *)
Definition slice (s : string) (i j : Z) : string :=
  String.substring (Z.to_nat i) (Z.to_nat j - Z.to_nat i) s.

Fixpoint all_dots (s : string) : bool :=
  match s with
  | EmptyString => true
  | String c rest => Ascii.eqb c "." && all_dots rest
  end.

(** [os.path.splitext(p)] of [posixpath]: the extension starts at the last
    dot, when that dot comes after the last slash and after a character of
    the file name that is not a dot. *)
Definition splitext (p : string) : string * string :=
  let sepIndex := rfind "/" p in
  let dotIndex := rfind "." p in
  if (dotIndex >? sepIndex)%Z then
    if all_dots (slice p (sepIndex + 1) dotIndex) then (p, EmptyString)
    else (slice p 0 dotIndex, slice p dotIndex (Z.of_nat (String.length p)))
  else (p, EmptyString).

(** ** Files, processes and what the page shows *)

Definition FileNotFoundError (path : string) : pyexc := Exc "FileNotFoundError" path.

(** [subprocess.CalledProcessError]; of its attributes the page reads
    [stderr] only. *)
Definition CalledProcessError (stderr : string) : pyexc :=
  Exc "CalledProcessError" stderr.

Definition exc_class (e : pyexc) : string :=
  match e with
  | Exc cls _ => cls
  end.

Definition exc_arg (e : pyexc) : string :=
  match e with
  | Exc _ arg => arg
  end.

(** What the user sees or waits for: [st.error], [st.success],
    [st.download_button], [time.sleep] and [progress_bar.progress]. *)
Inductive event : Type :=
  | StError (message : string)
  | StSuccess (message : string)
  | StDownloadButton (label data file_name mime : string)
  | Sleep (seconds : Q)
  | Progress (value : Q).

(** The files on disk, by path, and the events so far, oldest first. *)
Record world : Type := World {
  files : gmap string string;
  events : list event
}.

(** A statement runs in a world and leaves one, with a value or an
    exception. *)
Definition io (A : Type) : Type := world -> result A * world.

Definition io_ret {A : Type} (a : A) : io A := fun w => (Ok a, w).

Definition io_bind {A B : Type} (m : io A) (k : A -> io B) : io B :=
  fun w =>
    match m w with
    | (Ok a, w') => k a w'
    | (Raise e, w') => (Raise e, w')
    end.

#[global] Instance io_mret : MRet io := @io_ret.
#[global] Instance io_mbind : MBind io := fun A B k m => io_bind m k.

(** An expression that touches neither files nor the page. *)
Definition lift {A : Type} (r : result A) : io A := fun w => (r, w).

(** [try: body finally: cleanup]: the cleanup runs whatever the body did;
    an exception of the cleanup takes the place of the body's outcome. *)
Definition try_finally {A : Type} (body : io A) (cleanup : io unit) : io A :=
  fun w =>
    let '(r, w1) := body w in
    match cleanup w1 with
    | (Ok _, w2) => (r, w2)
    | (Raise e, w2) => (Raise e, w2)
    end.

(** [try: body except cls as e: handler]. *)
Definition try_except {A : Type} (body : io A) (cls : string)
    (handler : pyexc -> io A) : io A :=
  fun w =>
    match body w with
    | (Raise e, w1) =>
        if String.eqb (exc_class e) cls then handler e w1 else (Raise e, w1)
    | (Ok a, w1) => (Ok a, w1)
    end.

(** Writing a new file and closing it. *)
Definition write_file (path data : string) : io unit :=
  fun w => (Ok tt, World (<[path := data]> (files w)) (events w)).

(** [open(path, "rb").read()] *)
Definition read_file (path : string) : io string :=
  fun w =>
    match files w !! path with
    | Some data => (Ok data, w)
    | None => (Raise (FileNotFoundError path), w)
    end.

(** [os.unlink(path)] *)
Definition unlink (path : string) : io unit :=
  fun w =>
    match files w !! path with
    | Some _ => (Ok tt, World (delete path (files w)) (events w))
    | None => (Raise (FileNotFoundError path), w)
    end.

(** [os.path.exists(path)] *)
Definition path_exists (path : string) : io bool :=
  fun w =>
    (Ok (match files w !! path with Some _ => true | None => false end), w).

Definition emit (e : event) : io unit :=
  fun w => (Ok tt, World (files w) (events w ++ [e])).

(** [for x in xs: body] *)
Fixpoint for_each {A : Type} (xs : list A) (body : A -> io unit) : io unit :=
  match xs with
  | [] => io_ret tt
  | x :: rest => _ ← body x; for_each rest body
  end.

(** How a child process ends.  It exits with a return code, and what it
    wrote to its output and error streams decodes as text: [stderr] is that
    text of the error stream, with its line ends translated; or it exits
    and what it wrote does not decode; or it cannot be started.  [files']
    are the files as the process leaves them. *)
Inductive run_outcome : Type :=
  | Exits (returncode : Z) (stderr : string) (files' : gmap string string)
  | Garbled (reason : string) (files' : gmap string string)
  | CannotRun (e : pyexc).

Definition UnicodeDecodeError (reason : string) : pyexc :=
  Exc "UnicodeDecodeError" reason.

(** [subprocess.run(command, check=True, capture_output=True, text=True)]:
    the captured streams are decoded once the process has exited, before
    the return code is looked at. *)
Definition subprocess_run
    (process : list pyval -> gmap string string -> run_outcome)
    (command : list pyval) : io unit :=
  fun w =>
    match process command (files w) with
    | Exits returncode stderr files' =>
        if (returncode =? 0)%Z then (Ok tt, World files' (events w))
        else (Raise (CalledProcessError stderr), World files' (events w))
    | Garbled reason files' =>
        (Raise (UnicodeDecodeError reason), World files' (events w))
    | CannotRun e => (Raise e, w)
    end.

(** [v != s] and [v == s] for a string literal [s]. *)
Definition py_eq (v : pyval) (s : string) : bool :=
  match v with
  | PyStr t => String.eqb t s
  | PyNum _ => false
  end.

Definition py_ne (v : pyval) (s : string) : bool := negb (py_eq v s).

(** ** [extract_audio] *)

(** [temp_video_path.replace(".mp4", f".{output_format}")] *)
Definition audio_file_name (temp_video_path output_format : string) : string :=
  str_replace temp_video_path ".mp4" ("." ++ output_format).

Section Extract.

(** The module constant [FFMPEG_PATH], the behaviour of the program it
    names, and [str()] of a float. *)
Variable FFMPEG_PATH : string.
Variable process : list pyval -> gmap string string -> run_outcome.
Variable str_float : pyfloat -> string.

(** The lines that build [command], up to the [try]. *)
Definition extract_command (temp_video_path audio_file output_format : string)
    (settings : gmap string pyval) : result (list pyval) :=
  let command :=
    [PyStr FFMPEG_PATH; PyStr "-i"; PyStr temp_video_path; PyStr "-vn"] in
  v ← getitem settings "hardware_accel";
  command ←
    (if py_ne v "None" then
       v ← getitem settings "hardware_accel";
       if py_eq v "NVIDIA NVENC"
       then Ok (command ++ [PyStr "-c:a"; PyStr "h264_nvenc"])%list
       else
         v ← getitem settings "hardware_accel";
         if py_eq v "AMD AMF"
         then Ok (command ++ [PyStr "-c:a"; PyStr "h264_amf"])%list
         else
           v ← getitem settings "hardware_accel";
           if py_eq v "Intel QSV"
           then Ok (command ++ [PyStr "-c:a"; PyStr "h264_qsv"])%list
           else Ok command
     else Ok command);
  v ← getitem settings "thread_count";
  let command := (command ++ [PyStr "-threads"; PyStr (str str_float v)])%list in
  v ← getitem settings "encoding_preset";
  let command := (command ++ [PyStr "-preset"; v])%list in
  v ← getitem settings "audio_bitrate";
  command ←
    (if py_ne v "Default" then
       v ← getitem settings "audio_bitrate";
       Ok (command ++ [PyStr "-b:a"; v])%list
     else Ok command);
  v ← getitem settings "sample_rate";
  command ←
    (if py_ne v "Default" then
       v ← getitem settings "sample_rate";
       Ok (command ++ [PyStr "-ar"; v])%list
     else Ok command);
  Ok (command ++ [PyStr "-acodec"; PyStr output_format; PyStr audio_file])%list.

(** [temp_stem] is the part of the temporary file's name that the system
    picks; the name is that followed by the suffix.  [video_file] is what
    [video_file.read()] returns. *)
Definition extract_audio (temp_stem : string) (video_file : string)
    (output_format : string) (settings : gmap string pyval)
  : io (option string) :=
  let temp_video_path := temp_stem ++ ".mp4" in
  _ ← write_file temp_video_path video_file;
  let audio_file := audio_file_name temp_video_path output_format in
  command ← lift (extract_command temp_video_path audio_file output_format settings);
  try_finally
    (try_except
       (_ ← subprocess_run process command;
        audio_data ← read_file audio_file;
        io_ret (Some audio_data))
       "CalledProcessError"
       (fun e =>
          _ ← emit (StError ("Error during audio extraction: " ++ exc_arg e));
          io_ret None))
    (_ ← unlink temp_video_path;
     io_bind (path_exists audio_file)
       (fun there : bool => if there then unlink audio_file else io_ret tt)).

End Extract.

(** The key [extract_audio] finds missing in the settings: it reads
    [hardware_accel], [thread_count], [encoding_preset], [audio_bitrate] and
    [sample_rate], in this order. *)
Definition setting_keys : list string :=
  ["hardware_accel"; "thread_count"; "encoding_preset"; "audio_bitrate";
   "sample_rate"].

Definition missing_setting (settings : gmap string pyval) : option string :=
  List.find
    (fun key => match settings !! key with Some _ => false | None => true end)
    setting_keys.

(** The file name the page offers for the extracted audio:
    [name.replace(os.path.splitext(name)[1], f".{audio_format}")]. *)
Definition download_name (name audio_format : string) : string :=
  str_replace name (snd (splitext name)) ("." ++ audio_format).

(** The characters of a [str], each with the bytes of its encoding. *)
Fixpoint characters (s : string) : list string :=
  match s with
  | EmptyString => []
  | String c rest =>
      match rest with
      | String c' _ =>
          if continuation c' then
            match characters rest with
            | ch :: chs => String c ch :: chs
            | [] => [String c ""]
            end
          else String c "" :: characters rest
      | EmptyString => [String c ""]
      end
  end.

(** An encoded [str] does not begin inside a character. *)
Definition begins_character (s : string) : bool :=
  match s with
  | EmptyString => true
  | String c _ => negb (continuation c)
  end.

(** ** The button of the extraction page *)

Section ExtractPage.

Variable FFMPEG_PATH : string.
Variable process : list pyval -> gmap string string -> run_outcome.
Variable str_float : pyfloat -> string.

(** What runs when [st.button("Extract Audio")] is pressed, with
    [video_name] for [video_file.name].  [if audio_data:] is false for
    [None] and for no bytes at all.  The spinner is shown only while
    [extract_audio] runs and leaves nothing on the page. *)
Definition extract_audio_button (temp_stem video_name video_file audio_format : string)
    (settings : gmap string pyval) : io unit :=
  audio_data ← extract_audio FFMPEG_PATH process str_float temp_stem video_file
                 audio_format settings;
  match audio_data with
  | Some (String _ _ as data) =>
      _ ← emit (StSuccess "Audio extracted successfully!");
      emit (StDownloadButton "Download Extracted Audio" data
              (download_name video_name audio_format) ("audio/" ++ audio_format))
  | _ =>
      emit (StError "Failed to extract audio. Please check if FFmpeg is installed and the FFMPEG_PATH is set correctly.")
  end.

End ExtractPage.

(** ** [transcribe_audio] *)

Section Transcribe.

(** The recognition engine: the models it loads, what a run returns, and
    the two calls the page makes.  A run reads the files and gets the path,
    the [task] keyword when it is given, and the [language] keyword. *)
Variable Model : Type.
Variable Transcript : Type.
Variable load_model : string -> result Model.
Variable model_transcribe :
  Model -> string -> option string -> option string ->
  gmap string string -> result Transcript.

(** [language if language else None] *)
Definition language_or_none (language : string) : option string :=
  match language with
  | EmptyString => None
  | String _ _ => Some language
  end.

(** [audio_name] is [audio_file.name] and [audio_bytes] what
    [audio_file.getvalue()] returns; [temp_stem] as in [extract_audio]. *)
Definition transcribe_audio (temp_stem : string) (audio_name audio_bytes : string)
    (model_name language task : string) : io Transcript :=
  model ← lift (load_model model_name);
  let tmp_file_path := temp_stem ++ snd (splitext audio_name) in
  _ ← write_file tmp_file_path audio_bytes;
  try_finally
    (_ ← for_each (seq 0 100)
           (fun i =>
              _ ← emit (Sleep 0.1);
              emit (Progress (Z.of_nat i # 100)));
     result ←
       (if String.eqb task "transcribe"
        then fun w =>
          (model_transcribe model tmp_file_path None
             (language_or_none language) (files w), w)
        else fun w =>
          (model_transcribe model tmp_file_path (Some "translate")
             (language_or_none language) (files w), w));
     _ ← emit (Progress 1);
     io_ret result)
    (unlink tmp_file_path).

End Transcribe.

(** ** Sample settings and processes *)

(** The settings the page starts with. *)
Definition default_settings : gmap string pyval :=
  <["hardware_accel" := PyStr "None"]>
    (<["thread_count" := itg 0]>
       (<["encoding_preset" := PyStr "medium"]>
          (<["audio_bitrate" := PyStr "Default"]>
             (<["sample_rate" := PyStr "Default"]> ∅)))).

(** A process that writes its last argument and exits with 0, one that
    writes nothing and exits with 1, and a program that is not there. *)
Definition writing_process (command : list pyval) (fs : gmap string string)
  : run_outcome :=
  match last command with
  | Some (PyStr out) => Exits 0 "" (<[out := "AUDIO"]> fs)
  | _ => CannotRun (TypeError "expected str")
  end.

Definition failing_process (command : list pyval) (fs : gmap string string)
  : run_outcome :=
  Exits 1 "Unknown encoder" fs.

Definition absent_program (command : list pyval) (fs : gmap string string)
  : run_outcome :=
  CannotRun (FileNotFoundError "ffmpeg").


Definition empty_world : world := World ∅ [].

(** The hundred reports made before the engine is called. *)
Definition fake_progress : list event :=
  flat_map (fun i : nat => [Sleep 0.1; Progress (Z.of_nat i # 100)]) (seq 0 100).

(** An engine that returns the bytes of the file it is given, and one that
    fails. *)
Definition echo_engine (model : unit) (path : string) (task language : option string)
    (fs : gmap string string) : result string :=
  match fs !! path with
  | Some audio => Ok audio
  | None => Raise (FileNotFoundError path)
  end.

Definition failing_engine (model : unit) (path : string)
    (task language : option string) (fs : gmap string string) : result string :=
  Raise (Exc "RuntimeError" "failed to load audio").

(** ** What one segment adds to the output *)

Section Cues.

Variable str_float : pyfloat -> string.

(** The text the loop body of [create_vtt_content] appends for a segment,
    and the record the loop body of [create_tsv_content] writes. *)
Definition vtt_cue_of (segment : gmap string pyval) : result string :=
  v ← getitem segment "start";
  start ← format_time v;
  v ← getitem segment "end";
  end_ ← format_time v;
  text ← getitem segment "text";
  Ok (start ++ ".000 --> " ++ end_ ++ ".000" ++ nl ++ str str_float text ++ nl ++ nl).

Definition tsv_record_of (segment : gmap string pyval) : result string :=
  v ← getitem segment "start";
  start ← format_time v;
  v ← getitem segment "end";
  end_ ← format_time v;
  text ← getitem segment "text";
  Ok (csv.record TAB [start; end_; str str_float text] ++ csv.lineterminator).

(** The same for [create_srt_content], whose text depends on the index. *)
Definition srt_block_of (i : Z) (segment : gmap string pyval) : result string :=
  v ← getitem segment "start";
  t ← format_time v;
  let start := t ++ ",000" in
  v ← getitem segment "end";
  t ← format_time v;
  let end_ := t ++ ",000" in
  text ← getitem segment "text";
  Ok (str_int i ++ nl ++ start ++ " --> " ++ end_ ++ nl
        ++ str str_float text ++ nl ++ nl).

End Cues.

(** A segment the serializers get through: [start] and [end] hold an [int]
    or a finite [float], and [text] holds some value. *)
Definition serializable (segment : gmap string pyval) : bool :=
  match segment !! "start", segment !! "end", segment !! "text" with
  | Some a, Some b, Some _ => timestamp a && timestamp b
  | _, _, _ => false
  end.

(** A segment whose [text] is a number, and one whose [start] is a
    [str]. *)
Definition counted : gmap string pyval :=
  <["start" := itg 0]> (<["end" := flt 1.5]> (<["text" := itg 42]> ∅)).

Definition start_as_text : gmap string pyval :=
  <["start" := PyStr "0.0"]> (<["end" := flt 1.5]> (<["text" := PyStr "Hi"]> ∅)).

(** The exception a computation ends with, if it ends with one. *)
Definition failure {A : Type} (m : result A) : option pyexc :=
  match m with
  | Ok _ => None
  | Raise e => Some e
  end.

(** * Properties *)

(** ** Rounding to a double *)

Lemma Qpow2_pos (k : Z) : (0 < Qpow2 k)%Q.
Proof.
  unfold Qpow2. destruct (Z.leb_spec 0 k).
  - change 0%Q with (inject_Z 0). rewrite <- Zlt_Qlt. apply Z.pow_pos_nonneg; lia.
  - apply Qinv_lt_0_compat. change 0%Q with (inject_Z 0). rewrite <- Zlt_Qlt.
    apply Z.pow_pos_nonneg; lia.
Qed.

Lemma round_half_even_comp (q q' : Q) : (q == q')%Q -> round_half_even q = round_half_even q'.
Proof.
  intros H. unfold round_half_even. rewrite (Qfloor_comp _ _ H).
  now rewrite H.
Qed.

Lemma round_half_even_Z (z : Z) : round_half_even (inject_Z z) = z.
Proof.
  unfold round_half_even. rewrite Qfloor_Z.
  assert ((inject_Z z - inject_Z z ?= 1 # 2)%Q = Lt) as ->; [|reflexivity].
  apply Qlt_alt. ring_simplify (inject_Z z - inject_Z z)%Q. reflexivity.
Qed.

Lemma round_half_even_le (q : Q) (m : Z) :
  (q <= inject_Z m)%Q -> round_half_even q <= m.
Proof.
  intros H. unfold round_half_even.
  pose proof (Qfloor_resp_le _ _ H) as Hf. rewrite Qfloor_Z in Hf.
  destruct (Z.eq_dec (Qfloor q) m) as [E|E].
  - assert ((q - inject_Z (Qfloor q) ?= 1 # 2)%Q = Lt) as ->; [|lia].
    apply Qlt_alt. rewrite E.
    apply Qle_lt_trans with 0%Q; [|reflexivity]. lra.
  - destruct (_ ?= _)%Q; [destruct (Z.even _)|..]; lia.
Qed.

Lemma round_half_even_ge (q : Q) (m : Z) :
  (inject_Z m <= q)%Q -> m <= round_half_even q.
Proof.
  intros H. unfold round_half_even.
  pose proof (Qfloor_resp_le _ _ H) as Hf. rewrite Qfloor_Z in Hf.
  destruct (_ ?= _)%Q; [destruct (Z.even _)|..]; lia.
Qed.

Lemma Qpow2_nonneg_exp (k : Z) : 0 <= k -> Qpow2 k = inject_Z (2 ^ k).
Proof. intros H. unfold Qpow2. now destruct (Z.leb_spec 0 k); [|lia]. Qed.

Lemma Qpow2_neg_exp (k : Z) : k < 0 -> Qpow2 k = (/ inject_Z (2 ^ (- k)))%Q.
Proof. intros H. unfold Qpow2. now destruct (Z.leb_spec 0 k); [lia|]. Qed.

Lemma Qle_inv_Z (x : Z) (q : Q) :
  0 < x -> (/ inject_Z x <= q)%Q <-> (1 <= q * inject_Z x)%Q.
Proof.
  intros Hx. assert (0 < inject_Z x)%Q as Hq
    by (change 0%Q with (inject_Z 0); now rewrite <- Zlt_Qlt).
  split; intros H.
  - apply (Qmult_le_r _ _ (/ inject_Z x)); [now apply Qinv_lt_0_compat|].
    rewrite <- Qmult_assoc, Qmult_inv_r, Qmult_1_l, Qmult_1_r; [exact H|].
    intros E. rewrite E in Hq. discriminate.
  - apply (Qmult_le_r _ _ (/ inject_Z x)) in H; [|now apply Qinv_lt_0_compat].
    rewrite <- Qmult_assoc, Qmult_inv_r, Qmult_1_l, Qmult_1_r in H; [exact H|].
    intros E. rewrite E in Hq. discriminate.
Qed.

Lemma binade_lower (q : Q) : (0 < q)%Q -> (Qpow2 (binade q) <= q)%Q.
Proof.
  intros Hq. unfold binade.
  set (e := Z.log2 (Qnum q) - Z.log2 (Z.pos (Qden q))).
  destruct (Qle_bool (Qpow2 e) q) eqn:E; [now apply Qle_bool_iff|]. clear E.
  destruct q as [n d]. unfold Qlt in Hq. simpl in *. rewrite Z.mul_1_r in Hq.
  pose proof (Z.log2_spec n Hq) as [Hn _].
  pose proof (Z.log2_spec (Z.pos d) ltac:(lia)) as [_ Hd].
  set (a := Z.log2 n) in *. set (b := Z.log2 (Z.pos d)) in *.
  assert (0 <= a) by apply Z.log2_nonneg. assert (0 <= b) by apply Z.log2_nonneg.
  assert (e = a - b) as Ee by reflexivity. clearbody e.
  destruct (Z.le_gt_cases 0 (e - 1)) as [He|He].
  - rewrite Qpow2_nonneg_exp by assumption.
    unfold Qle, inject_Z. simpl. rewrite Z.mul_1_r.
    assert (2 ^ a = 2 ^ (e - 1) * 2 ^ Z.succ b) as Ea
      by (rewrite <- Z.pow_add_r by lia; f_equal; lia).
    assert (0 < 2 ^ (e - 1)) by (apply Z.pow_pos_nonneg; lia).
    apply Z.le_trans with (2 ^ (e - 1) * 2 ^ Z.succ b); [|lia].
    apply Z.mul_le_mono_nonneg_l; lia.
  - rewrite Qpow2_neg_exp by assumption.
    apply Qle_inv_Z; [apply Z.pow_pos_nonneg; lia|].
    unfold Qle, Qmult, inject_Z. simpl. rewrite !Z.mul_1_r, Z.mul_1_l, Pos.mul_1_r.
    assert (2 ^ Z.succ b = 2 ^ a * 2 ^ (- (e - 1))) as Eb
      by (rewrite <- Z.pow_add_r by lia; f_equal; lia).
    assert (0 < 2 ^ (- (e - 1))) by (apply Z.pow_pos_nonneg; lia).
    apply Z.le_trans with (2 ^ a * 2 ^ (- (e - 1))); [lia|].
    apply Z.mul_le_mono_nonneg_r; lia.
Qed.

Lemma binade_below (q : Q) (m : Z) :
  0 <= m -> (0 < q)%Q -> (q < inject_Z (2 ^ m))%Q -> binade q < m.
Proof.
  intros Hm Hq Hlt. pose proof (binade_lower q Hq) as Hlow.
  destruct (Z.lt_ge_cases (binade q) m) as [|Hge]; [assumption|exfalso].
  rewrite Qpow2_nonneg_exp in Hlow by lia.
  assert (inject_Z (2 ^ m) <= inject_Z (2 ^ binade q))%Q as Hmono
    by (rewrite <- Zle_Qle; apply Z.pow_le_mono_r; lia).
  lra.
Qed.

Lemma Qpow2_nonpos (k : Z) : k <= 0 -> (Qpow2 k == / inject_Z (2 ^ (- k)))%Q.
Proof.
  intros H. destruct (Z.eq_dec k 0) as [->|Hk]; [reflexivity|].
  rewrite Qpow2_neg_exp by lia. reflexivity.
Qed.

Lemma inject_Z_pow2_pos (j : Z) : 0 <= j -> (0 < inject_Z (2 ^ j))%Q.
Proof.
  intros Hj. change 0%Q with (inject_Z 0). rewrite <- Zlt_Qlt.
  apply Z.pow_pos_nonneg; lia.
Qed.

Lemma round_double_pos (q : Q) :
  (0 < q)%Q ->
  round_double q =
  (inject_Z (round_half_even (q / Qpow2 (Z.max (binade q - 52) (-1074))))
   * Qpow2 (Z.max (binade q - 52) (-1074)))%Q.
Proof.
  intros Hq. unfold round_double.
  assert (Qeq_bool q 0 = false) as ->.
  { apply not_true_is_false. intros E%Qeq_bool_iff. rewrite E in Hq. discriminate. }
  assert (Qle_bool 0 q = true) as -> by (apply Qle_bool_iff; lra).
  assert (Qabs q = q) as ->; [|reflexivity].
  destruct q as [n d]. unfold Qlt in Hq. simpl in Hq. unfold Qabs.
  f_equal. lia.
Qed.

Lemma round_double_neg (q : Q) :
  (q < 0)%Q -> round_double q = (- round_double (- q))%Q.
Proof.
  intros Hq. assert (0 < - q)%Q as Hp by lra.
  rewrite (round_double_pos _ Hp). unfold round_double.
  assert (Qeq_bool q 0 = false) as ->.
  { apply not_true_is_false. intros E%Qeq_bool_iff. rewrite E in Hq. discriminate. }
  assert (Qle_bool 0 q = false) as ->.
  { apply not_true_is_false. intros E%Qle_bool_iff. lra. }
  assert (Qabs q = (- q)%Q) as ->; [|reflexivity].
  destruct q as [n d]. unfold Qlt in Hq. simpl in Hq. unfold Qabs, Qopp. simpl.
  f_equal. lia.
Qed.

(** Below [2^53] the rounding is to a multiple of some [2^-j]. *)
Lemma round_double_small (q : Q) :
  (0 < q)%Q -> (q < inject_Z (2 ^ 53))%Q ->
  exists j : Z,
    0 <= j /\
    (round_double q ==
     inject_Z (round_half_even (q * inject_Z (2 ^ j))) / inject_Z (2 ^ j))%Q.
Proof.
  intros Hq Hlt. rewrite (round_double_pos q Hq).
  pose proof (binade_below q 53 ltac:(lia) Hq Hlt) as Hb.
  set (k := Z.max (binade q - 52) (-1074)).
  assert (k <= 0) as Hk by lia. clearbody k.
  exists (- k). split; [lia|].
  pose proof (inject_Z_pow2_pos (- k) ltac:(lia)) as Hp.
  assert (q / Qpow2 k == q * inject_Z (2 ^ (- k)))%Q as E.
  { rewrite (Qpow2_nonpos k Hk). field. lra. }
  rewrite (round_half_even_comp _ _ E), (Qpow2_nonpos k Hk). reflexivity.
Qed.

Lemma round_double_exact_pos (q : Q) (z : Z) :
  (q == inject_Z z)%Q -> 0 < z < 2 ^ 53 -> (round_double q == inject_Z z)%Q.
Proof.
  intros E Hz.
  assert (0 < q)%Q as Hq
    by (rewrite E; change 0%Q with (inject_Z 0); rewrite <- Zlt_Qlt; lia).
  assert (q < inject_Z (2 ^ 53))%Q as Hlt by (rewrite E, <- Zlt_Qlt; lia).
  destruct (round_double_small q Hq Hlt) as (j & Hj & ->).
  pose proof (inject_Z_pow2_pos j Hj) as Hp.
  assert (q * inject_Z (2 ^ j) == inject_Z (z * 2 ^ j))%Q as E'
    by (rewrite inject_Z_mult, E; reflexivity).
  rewrite (round_half_even_comp _ _ E'), round_half_even_Z, inject_Z_mult.
  field. lra.
Qed.

Lemma round_double_exact (q : Q) (z : Z) :
  (q == inject_Z z)%Q -> - 2 ^ 53 < z < 2 ^ 53 -> (round_double q == inject_Z z)%Q.
Proof.
  intros E Hz. destruct (Z.lt_trichotomy z 0) as [Hn|[->|Hp]].
  - assert (q < 0)%Q as Hq
      by (rewrite E; change 0%Q with (inject_Z 0); rewrite <- Zlt_Qlt; lia).
    rewrite (round_double_neg q Hq).
    rewrite (round_double_exact_pos (- q) (- z)); [|rewrite E, inject_Z_opp; reflexivity|lia].
    rewrite inject_Z_opp. ring.
  - unfold round_double.
    assert (Qeq_bool q 0 = true) as -> by (now apply Qeq_bool_iff). reflexivity.
  - apply round_double_exact_pos; [exact E|lia].
Qed.

Lemma round_double_between (q : Q) (b : Z) :
  0 < b < 2 ^ 53 -> (0 <= q <= inject_Z b)%Q ->
  (0 <= round_double q <= inject_Z b)%Q.
Proof.
  intros Hb [H0 Hq].
  assert (0 < inject_Z b)%Q as Hbq
    by (change 0%Q with (inject_Z 0); rewrite <- Zlt_Qlt; lia).
  destruct (Qeq_bool q 0) eqn:Ez.
  - unfold round_double. rewrite Ez. lra.
  - assert (0 < q)%Q as Hpos.
    { apply Qeq_bool_neq in Ez. apply Qle_lt_or_eq in H0 as [|E]; [assumption|].
      exfalso. apply Ez. now symmetry. }
    assert (q < inject_Z (2 ^ 53))%Q as Hlt.
    { apply Qle_lt_trans with (inject_Z b); [exact Hq|]. rewrite <- Zlt_Qlt. lia. }
    destruct (round_double_small q Hpos Hlt) as (j & Hj & ->).
    pose proof (inject_Z_pow2_pos j Hj) as Hp.
    set (n := round_half_even (q * inject_Z (2 ^ j))).
    assert (0 <= n) as Hn0.
    { apply round_half_even_ge. change (inject_Z 0) with 0%Q.
      apply Qmult_le_0_compat; lra. }
    assert (n <= b * 2 ^ j) as Hnb.
    { apply round_half_even_le. rewrite inject_Z_mult.
      apply Qmult_le_compat_r; lra. }
    rewrite Zle_Qle in Hn0, Hnb. rewrite inject_Z_mult in Hnb.
    change (inject_Z 0) with 0%Q in Hn0.
    split.
    + apply Qle_shift_div_l; [exact Hp|]. lra.
    + apply Qle_shift_div_r; [exact Hp|]. lra.
Qed.

Lemma Qfloor_sub_Z (q : Q) (k : Z) : Qfloor (q - inject_Z k) = Qfloor q - k.
Proof.
  destruct q as [a b]. unfold Qminus, Qplus, Qopp, inject_Z, Qfloor. simpl.
  rewrite Pos.mul_1_r, Z.mul_1_r.
  replace (a + - k * Z.pos b) with (a + (- k) * Z.pos b) by lia.
  rewrite Z.div_add by lia. lia.
Qed.

Lemma Qfloor_div_Z (q : Q) (d : Z) : 0 < d -> Qfloor (q / inject_Z d) = Qfloor q / d.
Proof.
  intros Hd. destruct q as [a b]. destruct d as [|d|d]; try lia.
  unfold Qdiv, Qmult, Qinv, inject_Z, Qfloor. simpl.
  rewrite Z.mul_1_r, Pos2Z.inj_mul.
  rewrite Z.div_div by lia. reflexivity.
Qed.

Lemma Qtruncate_Z (k : Z) : Qtruncate (inject_Z k) = k.
Proof.
  unfold Qtruncate. destruct (Qle_bool 0 (inject_Z k)).
  - apply Qfloor_Z.
  - apply Qceiling_Z.
Qed.

Lemma Qtruncate_nonneg (q : Q) : (0 <= q)%Q -> Qtruncate q = Qfloor q.
Proof.
  intros H. unfold Qtruncate. apply Qle_bool_iff in H. now rewrite H.
Qed.

Lemma Qfloor_unique (q : Q) (z : Z) :
  (inject_Z z <= q)%Q -> (q < inject_Z (z + 1))%Q -> Qfloor q = z.
Proof.
  intros Hl Hu. pose proof (Qfloor_le q) as Fl. pose proof (Qlt_floor q) as Fu.
  assert (inject_Z z < inject_Z (Qfloor q + 1))%Q as A by lra.
  assert (inject_Z (Qfloor q) < inject_Z (z + 1))%Q as B by lra.
  rewrite <- Zlt_Qlt in A, B. lia.
Qed.

(** The quotient truncated towards zero is the floor, or one above it when
    the remainder is negative. *)
Lemma Qtruncate_floor (q : Q) :
  Qfloor q =
  if Qle_bool (inject_Z (Qtruncate q)) q then Qtruncate q else Qtruncate q - 1.
Proof.
  unfold Qtruncate. destruct (Qle_bool 0 q) eqn:E0.
  - assert (Qle_bool (inject_Z (Qfloor q)) q = true) as ->; [|reflexivity].
    apply Qle_bool_iff, Qfloor_le.
  - pose proof (Qle_ceiling q) as Cu. pose proof (Qceiling_lt q) as Cl.
    destruct (Qle_bool (inject_Z (Qceiling q)) q) eqn:E.
    + apply Qle_bool_iff in E. apply Qfloor_unique; [exact E|].
      rewrite inject_Z_plus. change (inject_Z 1) with 1%Q. lra.
    + assert (q < inject_Z (Qceiling q))%Q as Hlt.
      { apply Qnot_le_lt. intros H%Qle_bool_iff. congruence. }
      apply Qfloor_unique.
      * apply Qlt_le_weak, Cl.
      * now replace (Qceiling q - 1 + 1) with (Qceiling q) by lia.
Qed.

Lemma inject_Z_pos (z : Z) : 0 < z -> (0 < inject_Z z)%Q.
Proof. intros H. change 0%Q with (inject_Z 0). now rewrite <- Zlt_Qlt. Qed.

(** [fmod] keeps the sign of the dividend and is smaller than the divisor. *)
Lemma fmod_floor (q : Q) (d : Z) :
  0 < d ->
  (fmod q d ==
   q - inject_Z d * inject_Z (Qfloor q / d)
   - (if Qle_bool 0 (fmod q d) then 0 else inject_Z d))%Q.
Proof.
  intros Hd. pose proof (inject_Z_pos d Hd) as Hq.
  unfold fmod. rewrite <- (Qfloor_div_Z q d Hd), (Qtruncate_floor (q / inject_Z d)).
  set (t := Qtruncate (q / inject_Z d)).
  assert (Qle_bool 0 (q - inject_Z d * inject_Z t)
          = Qle_bool (inject_Z t) (q / inject_Z d)) as ->.
  { apply eq_true_iff_eq. rewrite !Qle_bool_iff. split; intros H.
    - apply Qle_shift_div_l; [exact Hq|]. lra.
    - apply (Qmult_le_r _ _ (inject_Z d)) in H; [|exact Hq].
      assert (q / inject_Z d * inject_Z d == q)%Q as E by (field; lra).
      rewrite E in H. lra. }
  destruct (Qle_bool (inject_Z t) (q / inject_Z d)).
  - ring.
  - unfold Z.sub. rewrite inject_Z_plus, inject_Z_opp. ring.
Qed.

Lemma snap_Z (div : Q) (z : Z) : (div == inject_Z z)%Q -> Qtruncate (snap div) = z.
Proof.
  intros E. unfold snap. destruct (Qeq_bool div 0) eqn:E0.
  - apply Qeq_bool_iff in E0. rewrite E0 in E. unfold Qeq in E. simpl in E.
    assert (z = 0) as -> by lia. reflexivity.
  - rewrite (Qfloor_comp _ _ E), Qfloor_Z.
    assert (Qle_bool (div - inject_Z z) (1 # 2) = true) as ->.
    { apply Qle_bool_iff. rewrite E. ring_simplify (inject_Z z - inject_Z z)%Q.
      discriminate. }
    apply Qtruncate_Z.
Qed.

Lemma floor_rem_bounds (q : Q) (d : Z) :
  0 < d ->
  (0 <= q - inject_Z d * inject_Z (Qfloor q / d) < inject_Z d)%Q.
Proof.
  intros Hd. pose proof (Qfloor_le q) as Fl. pose proof (Qlt_floor q) as Fu.
  pose proof (Z.mul_div_le (Qfloor q) d Hd) as L.
  pose proof (Z.mul_succ_div_gt (Qfloor q) d Hd) as U.
  rewrite <- inject_Z_mult.
  assert (inject_Z (d * (Qfloor q / d)) <= inject_Z (Qfloor q))%Q as L'
    by (now rewrite <- Zle_Qle).
  assert (inject_Z (Qfloor q + 1) <= inject_Z (d * (Qfloor q / d) + d))%Q as U'
    by (rewrite <- Zle_Qle; lia).
  rewrite !inject_Z_plus in U'. rewrite inject_Z_plus in Fu. lra.
Qed.

Lemma fmod_sign (q : Q) (d : Z) :
  0 < d -> Qle_bool 0 q = true -> Qle_bool 0 (fmod q d) = true.
Proof.
  intros Hd Hq. pose proof (inject_Z_pos d Hd) as Hdq.
  apply Qle_bool_iff in Hq. apply Qle_bool_iff.
  assert (0 <= q / inject_Z d)%Q as Hx
    by (apply Qle_shift_div_l; [exact Hdq|lra]).
  unfold fmod. rewrite (Qtruncate_nonneg _ Hx), Qfloor_div_Z by assumption.
  apply floor_rem_bounds, Hd.
Qed.

Lemma fmod_sign_neg (q : Q) (d : Z) :
  0 < d -> Qle_bool 0 q = false -> (fmod q d <= 0)%Q.
Proof.
  intros Hd Hq. pose proof (inject_Z_pos d Hd) as Hdq.
  assert (q < 0)%Q as Hneg.
  { apply Qnot_le_lt. intros H%Qle_bool_iff. congruence. }
  assert (q / inject_Z d < 0)%Q as Hx.
  { apply Qlt_shift_div_r; [exact Hdq|lra]. }
  unfold fmod, Qtruncate.
  assert (Qle_bool 0 (q / inject_Z d) = false) as ->.
  { apply not_true_is_false. intros H%Qle_bool_iff. lra. }
  pose proof (Qle_ceiling (q / inject_Z d)) as Hc.
  apply (Qmult_le_r _ _ (inject_Z d)) in Hc; [|exact Hdq].
  assert (q / inject_Z d * inject_Z d == q)%Q as E by (field; lra).
  rewrite E in Hc. lra.
Qed.

Lemma div_inject_Z (q : Q) (d z : Z) :
  0 < d -> (q == inject_Z (d * z))%Q -> (q / inject_Z d == inject_Z z)%Q.
Proof.
  intros Hd E. pose proof (inject_Z_pos d Hd). rewrite E, inject_Z_mult.
  field. lra.
Qed.

(** Within 53 bits the floor division of a float is the floor division of
    its whole part. *)
Lemma float_floordiv_exact (q : Q) (d : Z) :
  1 < d -> - 2 ^ 53 < Qfloor q < 2 ^ 53 ->
  exists r, float_floordiv (FFinite q) d = FFinite r /\ Qtruncate r = Qfloor q / d.
Proof.
  intros Hd Hr. eexists. split; [reflexivity|]. apply snap_Z.
  assert (0 < d) as Hd0 by lia.
  pose proof (inject_Z_pos d Hd0) as Hdq.
  pose proof (fmod_floor q d Hd0) as Em.
  pose proof (floor_rem_bounds q d Hd0) as Hb.
  pose proof (Qfloor_le q) as Fl.
  pose proof (Z.mul_div_le (Qfloor q) d Hd0) as L.
  pose proof (Z.mul_succ_div_gt (Qfloor q) d Hd0) as U.
  set (m := fmod q d) in *. set (F := Qfloor q / d) in *.
  destruct (Qle_bool 0 m) eqn:Es.
  - assert (q - m == inject_Z (d * F))%Q as E1 by (rewrite inject_Z_mult, Em; ring).
    assert (- 2 ^ 53 < d * F < 2 ^ 53) as Hz.
    { split; [|lia]. destruct (Qle_bool 0 q) eqn:Eq.
      - apply Qle_bool_iff in Eq.
        pose proof (Qfloor_resp_le _ _ Eq) as H0. change (Qfloor 0) with 0 in H0.
        assert (0 <= F) by (apply Z.div_pos; lia). nia.
      - pose proof (fmod_sign_neg q d Hd0 Eq) as Hm. fold m in Hm.
        apply Qle_bool_iff in Es.
        assert (inject_Z (Qfloor q) <= inject_Z (d * F))%Q as H1
          by (rewrite inject_Z_mult; lra).
        rewrite <- Zle_Qle in H1. lia. }
    apply round_double_exact; [|nia].
    apply (div_inject_Z _ d F Hd0), (round_double_exact _ _ E1 Hz).
  - assert (q - m == inject_Z (d * (F + 1)))%Q as E1.
    { rewrite inject_Z_mult, inject_Z_plus, Em. change (inject_Z 1) with 1%Q. ring. }
    assert (m < 0)%Q as Hm.
    { apply Qnot_le_lt. intros H%Qle_bool_iff. congruence. }
    assert (Qle_bool 0 q = false) as Eq.
    { apply not_true_is_false. intros H. apply (fmod_sign q d Hd0) in H.
      fold m in H. congruence. }
    assert (q < 0)%Q as Hq.
    { apply Qnot_le_lt. intros H%Qle_bool_iff. congruence. }
    assert (Qfloor q < 0) as Hf.
    { assert (inject_Z (Qfloor q) < inject_Z 0)%Q as H by (change (inject_Z 0) with 0%Q; lra).
      now rewrite <- Zlt_Qlt in H. }
    assert (F < 0) as HF by (apply Z.div_lt_upper_bound; lia).
    assert (- 2 ^ 53 < d * (F + 1) < 2 ^ 53) as Hz by nia.
    assert (- 2 ^ 53 < F + 1 < 2 ^ 53) as Hz1 by nia.
    assert (- 2 ^ 53 < F < 2 ^ 53) as Hz2 by nia.
    apply round_double_exact; [|exact Hz2].
    rewrite (round_double_exact _ (F + 1)); [|
      apply (div_inject_Z _ d (F + 1) Hd0), (round_double_exact _ _ E1 Hz)|exact Hz1].
    rewrite inject_Z_plus. change (inject_Z 1) with 1%Q. ring.
Qed.

(** The remainder of a non-negative float is exact. *)
Lemma float_mod_nonneg (q : Q) (d : Z) :
  0 < d -> (0 <= q)%Q ->
  exists r, float_mod (FFinite q) d = FFinite r /\ (0 <= r)%Q /\
            Qfloor r = Qfloor q mod d.
Proof.
  intros Hd Hq. apply Qle_bool_iff in Hq.
  pose proof (fmod_sign q d Hd Hq) as Hs.
  pose proof (fmod_floor q d Hd) as Em. rewrite Hs in Em.
  exists (fmod q d). unfold float_mod. rewrite Hs.
  split; [reflexivity|]. split; [now apply Qle_bool_iff|].
  assert (fmod q d == q - inject_Z (d * (Qfloor q / d)))%Q as E
    by (rewrite Em, inject_Z_mult; ring).
  rewrite (Qfloor_comp _ _ E), Qfloor_sub_Z, Z.mod_eq by lia. reflexivity.
Qed.

(** The remainder of any finite float lies between 0 and the divisor, the
    divisor included: a small negative remainder rounds up to it. *)
Lemma float_mod_bounds (q : Q) (d : Z) :
  0 < d < 2 ^ 53 ->
  exists r, float_mod (FFinite q) d = FFinite r /\ (0 <= r <= inject_Z d)%Q.
Proof.
  intros Hd. assert (0 < d) as Hd0 by lia.
  pose proof (fmod_floor q d Hd0) as Em.
  pose proof (floor_rem_bounds q d Hd0) as Hb.
  unfold float_mod. destruct (Qle_bool 0 (fmod q d)) eqn:Es.
  - eexists. split; [reflexivity|]. lra.
  - eexists. split; [reflexivity|]. apply round_double_between; [exact Hd|]. lra.
Qed.

(** ** [format_time] on numbers *)

Lemma format_time_locals_int (z : Z) :
  format_time_locals (itg z) = Ok (z / 3600, (z mod 3600) / 60, z mod 60, 0).
Proof.
  unfold format_time_locals.
  cbn [number mbind result_bind bind floordiv modulo int mul itg].
  now rewrite Z.mod_1_r.
Qed.

Lemma float_floordiv_finite (q : Q) (d : Z) :
  exists r, float_floordiv (FFinite q) d = FFinite r.
Proof. eexists. reflexivity. Qed.

Lemma float_mod_finite (q : Q) (d : Z) :
  exists r, float_mod (FFinite q) d = FFinite r.
Proof. eexists. reflexivity. Qed.

(** On a finite float every step gives a finite float, and [int()] of it
    an integer. *)
Lemma format_time_locals_steps (q rh rr rm rs : Q) :
  float_floordiv (FFinite q) 3600 = FFinite rh ->
  float_mod (FFinite q) 3600 = FFinite rr ->
  float_floordiv (FFinite rr) 60 = FFinite rm ->
  float_mod (FFinite q) 60 = FFinite rs ->
  format_time_locals (flt q) = Ok (Qtruncate rh, Qtruncate rm, Qtruncate rs, 0).
Proof.
  intros Hh Hr Hm Hs. unfold format_time_locals.
  cbn [number flt mbind result_bind bind floordiv modulo].
  rewrite Hh, Hr, Hm, Hs.
  cbn [int mbind result_bind bind modulo mul]. now rewrite Z.mod_1_r.
Qed.

Lemma format_time_locals_finite (q : Q) :
  exists hours minutes seconds : Z,
    format_time_locals (flt q) = Ok (hours, minutes, seconds, 0).
Proof.
  destruct (float_floordiv_finite q 3600) as [rh Eh].
  destruct (float_mod_finite q 3600) as [rr Er].
  destruct (float_floordiv_finite rr 60) as [rm Em].
  destruct (float_mod_finite q 60) as [rs Es].
  eexists _, _, _. apply (format_time_locals_steps q rh rr rm rs Eh Er Em Es).
Qed.

(** From 0 up to 2^53 a float is formatted as its whole part is. *)
Lemma format_time_locals_float (q : Q) :
  (0 <= q)%Q -> Qfloor q < 2 ^ 53 ->
  format_time_locals (flt q) = format_time_locals (itg (Qfloor q)).
Proof.
  intros Hq Hlt.
  assert (0 <= Qfloor q) as H0
    by (pose proof (Qfloor_resp_le _ _ Hq) as H; exact H).
  destruct (float_floordiv_exact q 3600 ltac:(lia) ltac:(lia)) as (rh & Eh & Hh).
  destruct (float_mod_nonneg q 3600 ltac:(lia) Hq) as (rr & Er & Hr0 & Hr).
  destruct (float_mod_nonneg q 60 ltac:(lia) Hq) as (rs & Es & Hs0 & Hs).
  pose proof (Z.mod_pos_bound (Qfloor q) 3600 ltac:(lia)) as Hb.
  destruct (float_floordiv_exact rr 60 ltac:(lia) ltac:(lia)) as (rm & Em & Hm).
  rewrite (format_time_locals_steps q rh rr rm rs Eh Er Em Es), format_time_locals_int.
  now rewrite Hh, Hm, Hr, (Qtruncate_nonneg rs Hs0), Hs.
Qed.

(** A negative float above -2^53: the hours are exact; the minutes and the
    seconds come from a remainder that may have rounded up to the divisor,
    so they reach 60. *)
Lemma format_time_locals_negative (q : Q) :
  - 2 ^ 53 < Qfloor q < 0 ->
  exists minutes seconds : Z,
    format_time_locals (flt q) = Ok (Qfloor q / 3600, minutes, seconds, 0) /\
    0 <= minutes <= 60 /\ 0 <= seconds <= 60.
Proof.
  intros Hr.
  destruct (float_floordiv_exact q 3600 ltac:(lia) ltac:(lia)) as (rh & Eh & Hh).
  destruct (float_mod_bounds q 3600 ltac:(lia)) as (rr & Er & Hr0 & Hr1).
  destruct (float_mod_bounds q 60 ltac:(lia)) as (rs & Es & Hs0 & Hs1).
  pose proof (Qfloor_resp_le _ _ Hr0) as Fr0. pose proof (Qfloor_resp_le _ _ Hr1) as Fr1.
  pose proof (Qfloor_resp_le _ _ Hs0) as Fs0. pose proof (Qfloor_resp_le _ _ Hs1) as Fs1.
  rewrite Qfloor_Z in Fr1, Fs1. change (Qfloor 0) with 0 in Fr0, Fs0.
  destruct (float_floordiv_exact rr 60 ltac:(lia) ltac:(lia)) as (rm & Em & Hm).
  exists (Qtruncate rm), (Qtruncate rs).
  rewrite (format_time_locals_steps q rh rr rm rs Eh Er Em Es), Hh.
  split; [reflexivity|]. rewrite Hm, (Qtruncate_nonneg rs Hs0).
  split; [|lia]. split.
  - apply Z.div_pos; lia.
  - apply Z.div_le_upper_bound; lia.
Qed.

Lemma format_time_float (q : Q) :
  (0 <= q)%Q -> Qfloor q < 2 ^ 53 ->
  format_time (flt q) = format_time (itg (Qfloor q)).
Proof. intros Hq Hlt. unfold format_time. now rewrite format_time_locals_float. Qed.

Lemma format_time_int (z : Z) :
  format_time (itg z) =
  Ok (format_0d 2 (z / 3600) ++ ":" ++ format_0d 2 ((z mod 3600) / 60) ++ ":"
        ++ format_0d 2 (z mod 60)).
Proof. unfold format_time. now rewrite format_time_locals_int. Qed.

Lemma timestamp_cases (v : pyval) :
  timestamp v = true -> (exists z, v = itg z) \/ (exists q, v = flt q).
Proof.
  destruct v as [[z|[q|s|]]|s]; simpl; intros H; try discriminate; eauto.
Qed.

Lemma negative_float (q : Q) : negative (flt q) = false <-> (0 <= q)%Q.
Proof.
  destruct q as [a b]. unfold Qle. simpl. rewrite Z.mul_1_r, Z.ltb_ge. reflexivity.
Qed.

(** From 0 up to 2^53 seconds a time is formatted as its whole seconds
    are. *)
Lemma format_time_whole (v : pyval) :
  timestamp v = true -> negative v = false -> whole_seconds v < 2 ^ 53 ->
  format_time v = format_time (itg (whole_seconds v)).
Proof.
  intros [[z ->]|[q ->]]%timestamp_cases Hn Hlt; [reflexivity|].
  apply format_time_float; [now apply negative_float|exact Hlt].
Qed.

Lemma format_time_returns (v : pyval) :
  timestamp v = true -> exists t, format_time v = Ok t.
Proof.
  intros [[z ->]|[q ->]]%timestamp_cases.
  - rewrite format_time_int. eauto.
  - unfold format_time. destruct (format_time_locals_finite q) as (h & m & s & ->).
    cbn. eauto.
Qed.

(** ** Strings *)

Lemma append_nil_l (t : string) : "" ++ t = t.
Proof. reflexivity. Qed.

Lemma append_cons (a : ascii) (s t : string) :
  String a s ++ t = String a (s ++ t).
Proof. reflexivity. Qed.

Lemma append_nil_r (s : string) : s ++ "" = s.
Proof. induction s as [|a s IH]; [reflexivity|]. now rewrite append_cons, IH. Qed.

Lemma append_assoc (s t u : string) : (s ++ t) ++ u = s ++ t ++ u.
Proof.
  induction s as [|a s IH]; [reflexivity|]. now rewrite !append_cons, IH.
Qed.

Lemma string_length_app (s t : string) :
  String.length (s ++ t) = (String.length s + String.length t)%nat.
Proof.
  induction s as [|a s IH]; [reflexivity|]. rewrite append_cons. simpl.
  now rewrite IH.
Qed.

(** ** Decimal rendering *)

Lemma decimal_value_decimal (n : N) : decimal_value (decimal n) = Some n.
Proof.
  unfold decimal_value, decimal. rewrite NilEmpty.usu. simpl.
  now rewrite DecimalN.Unsigned.of_to.
Qed.

Lemma decimal_value_zeros (k : nat) (s : string) :
  decimal_value (zeros k ++ s) = decimal_value s.
Proof.
  unfold decimal_value. induction k as [|k IH]; [reflexivity|].
  cbn [zeros]. rewrite append_cons. simpl. destruct (NilEmpty.uint_of_string (zeros k ++ s)) as [d|] eqn:E;
    destruct (NilEmpty.uint_of_string s) as [d'|]; simpl in *;
    try discriminate; try reflexivity.
  now injection IH as <-.
Qed.

Lemma length_zeros (k : nat) : String.length (zeros k) = k.
Proof. induction k; simpl; congruence. Qed.

Lemma below_100 (P : N -> bool) :
  forallb P (map N.of_nat (seq 0 100)) = true ->
  forall n, (n < 100)%N -> P n = true.
Proof.
  intros H n Hn. rewrite forallb_forall in H. apply H.
  apply in_map_iff. exists (N.to_nat n). split; [apply N2Nat.id|].
  apply in_seq. lia.
Qed.

Lemma length_decimal_pos (n : N) : (1 <= String.length (decimal n))%nat.
Proof.
  unfold decimal. destruct (N.to_uint n) eqn:E; simpl; try lia.
  destruct n as [|p]; [discriminate|].
  now apply DecimalPos.Unsigned.to_uint_nonnil in E.
Qed.

Lemma length_decimal_below_100 (n : N) :
  (n < 100)%N -> (String.length (decimal n) <= 2)%nat.
Proof.
  intros Hn. apply Nat.leb_le.
  apply (below_100 (fun n => String.length (decimal n) <=? 2)%nat); [|exact Hn].
  vm_compute. reflexivity.
Qed.

Lemma length_decimal_from_10 (n : N) :
  (10 <= n)%N -> (2 <= String.length (decimal n))%nat.
Proof.
  intros Hn. pose proof (length_decimal_pos n) as H1.
  destruct (Nat.eq_dec (String.length (decimal n)) 1%nat) as [E|]; [|lia].
  exfalso. pose proof (DecimalN.Unsigned.of_to n) as Hof.
  unfold decimal in E.
  destruct (N.to_uint n) as [|d|d|d|d|d|d|d|d|d|d]; try discriminate;
    destruct d; try discriminate; vm_compute in Hof; subst n; lia.
Qed.

Lemma length_decimal_from_100 (n : N) :
  (100 <= n)%N -> (3 <= String.length (decimal n))%nat.
Proof.
  intros Hn. pose proof (length_decimal_from_10 n ltac:(lia)) as H2.
  destruct (Nat.eq_dec (String.length (decimal n)) 2%nat) as [E|]; [|lia].
  exfalso. pose proof (DecimalN.Unsigned.of_to n) as Hof.
  unfold decimal in E.
  destruct (N.to_uint n) as [|d|d|d|d|d|d|d|d|d|d]; try discriminate;
    destruct d as [|d|d|d|d|d|d|d|d|d|d]; try discriminate;
    destruct d; try discriminate; vm_compute in Hof; subst n; lia.
Qed.

(** ** The [02d] format *)

Lemma format_0d_nonneg (width : nat) (z : Z) :
  0 <= z ->
  format_0d width z =
  zeros (width - String.length (decimal (Z.to_N z))) ++ decimal (Z.to_N z).
Proof.
  intros Hz. unfold format_0d.
  destruct (Z.ltb_spec z 0) as [|_]; [lia|].
  assert (Z.abs_N z = Z.to_N z) as -> by lia.
  simpl. now rewrite Nat.sub_0_r.
Qed.

Lemma format_0d_value (width : nat) (z : Z) :
  0 <= z -> decimal_value (format_0d width z) = Some (Z.to_N z).
Proof.
  intros Hz. rewrite format_0d_nonneg by assumption.
  now rewrite decimal_value_zeros, decimal_value_decimal.
Qed.

Lemma format_0d_length (width : nat) (z : Z) :
  0 <= z ->
  String.length (format_0d width z) =
  Nat.max width (String.length (decimal (Z.to_N z))).
Proof.
  intros Hz. rewrite format_0d_nonneg by assumption.
  rewrite string_length_app, length_zeros. lia.
Qed.

Lemma format_0d_wide (width : nat) (z : Z) :
  0 <= z -> (width <= String.length (decimal (Z.to_N z)))%nat ->
  format_0d width z = decimal (Z.to_N z).
Proof.
  intros Hz Hw. rewrite format_0d_nonneg by assumption.
  now replace (width - _)%nat with 0%nat by lia.
Qed.

Lemma format_0d_two_digits (z : Z) :
  0 <= z < 100 -> String.length (format_0d 2 z) = 2%nat.
Proof.
  intros Hz. rewrite format_0d_length by lia.
  pose proof (length_decimal_below_100 (Z.to_N z) ltac:(lia)). lia.
Qed.

Lemma whole_seconds_nonneg (v : pyval) :
  timestamp v = true -> negative v = false -> 0 <= whole_seconds v.
Proof.
  intros [[z ->]|[[a b] ->]]%timestamp_cases; simpl; intros H%Z.ltb_ge.
  - exact H.
  - apply Z.div_pos; lia.
Qed.

Lemma whole_seconds_negative (v : pyval) :
  timestamp v = true -> negative v = true -> whole_seconds v < 0.
Proof.
  intros [[z ->]|[[a b] ->]]%timestamp_cases; simpl; intros H%Z.ltb_lt.
  - exact H.
  - apply Z.div_lt_upper_bound; lia.
Qed.

(** ** Loops that append *)

Lemma concat_cons (r : string) (rs : list string) :
  String.concat "" (r :: rs) = r ++ String.concat "" rs.
Proof.
  destruct rs as [|r' rs]; simpl; [now rewrite append_nil_r|reflexivity].
Qed.

Lemma for_in_cons_ok {A S : Type} (body : A -> S -> result S) (x : A)
    (xs : list A) (acc acc' : S) :
  body x acc = Ok acc' -> for_in (x :: xs) body acc = for_in xs body acc'.
Proof. intros H. cbn [for_in]. unfold mbind, result_bind. now rewrite H. Qed.

Lemma for_in_render {A : Type} (ok : A -> Prop) (P : A -> string -> Prop)
    (body : A -> string -> result string) (xs : list A) :
  (forall x acc, ok x -> exists r, body x acc = Ok (acc ++ r) /\ P x r) ->
  Forall ok xs ->
  forall acc, exists rs,
    for_in xs body acc = Ok (acc ++ String.concat "" rs) /\ Forall2 P xs rs.
Proof.
  intros Hbody Hok. induction Hok as [|x xs Hx _ IH]; intros acc.
  - exists []. split; [simpl; now rewrite append_nil_r|constructor].
  - destruct (Hbody x acc Hx) as (r & Hr & HP).
    destruct (IH (acc ++ r)) as (rs & Hrs & HF).
    exists (r :: rs). split; [|now constructor].
    cbn [for_in]. unfold mbind, result_bind. rewrite Hr. cbn [bind].
    now rewrite Hrs, concat_cons, append_assoc.
Qed.

Lemma enumerate_lookup {A : Type} (xs : list A) (start : Z) (i : nat) :
  enumerate xs start !! i = (fun x => (start + Z.of_nat i, x)) <$> xs !! i.
Proof.
  revert start i. induction xs as [|x xs IH]; intros start [|i]; try reflexivity.
  - simpl. now rewrite Z.add_0_r.
  - cbn [enumerate]. rewrite !lookup_cons. rewrite IH.
    destruct (xs !! i); simpl; [|reflexivity]. do 2 f_equal. lia.
Qed.

Lemma enumerate_length {A : Type} (xs : list A) (start : Z) :
  length (enumerate xs start) = length xs.
Proof. revert start. induction xs; intros; simpl; auto. Qed.

Lemma Forall_enumerate {A : Type} (P : A -> Prop) (xs : list A) (start : Z) :
  Forall P xs -> Forall (fun p => P (snd p)) (enumerate xs start).
Proof.
  intros H. revert start. induction H; intros start; simpl; constructor; auto.
Qed.

Lemma str_int_nonneg (z : Z) : 0 <= z -> str_int z = decimal (Z.to_N z).
Proof. intros Hz. apply format_0d_wide; [assumption|lia]. Qed.

(** ** Well-formed segments *)

Lemma well_formed_fields (segment : gmap string pyval) :
  well_formed segment = true -> exists a b text, cue_fields segment a b text.
Proof.
  unfold well_formed, cue_fields.
  destruct (segment !! "start") as [start|]; [|discriminate].
  destruct (segment !! "end") as [end_|]; [|discriminate].
  destruct (segment !! "text") as [[x|text]|]; try discriminate.
  intros [Ha Hb]%andb_prop.
  destruct (format_time_returns start Ha) as [a Ea].
  destruct (format_time_returns end_ Hb) as [b Eb].
  exists a, b, text, start, end_. auto.
Qed.

Lemma forallb_well_formed (segments : list (gmap string pyval)) :
  forallb well_formed segments = true ->
  Forall (fun segment => well_formed segment = true) segments.
Proof.
  induction segments as [|segment rest IH]; simpl; [constructor|].
  intros [H1 H2]%andb_prop. constructor; auto.
Qed.

(** ** Shape of the SRT and VTT output *)

Section SerializerProperties.

Variable str_float : pyfloat -> string.

Lemma srt_structure (segments : list (gmap string pyval)) :
  forallb well_formed segments = true ->
  exists blocks : list string,
    create_srt_content str_float segments = Ok (String.concat "" blocks) /\
    length blocks = length segments /\
    forall (i : nat) segment, segments !! i = Some segment ->
      exists a b text, cue_fields segment a b text /\
        blocks !! i = Some (srt_block (Z.of_nat i + 1) a b text).
Proof.
  intros Hwf%forallb_well_formed. unfold create_srt_content.
  destruct (for_in_render
    (fun p : Z * gmap string pyval => well_formed (snd p) = true)
    (fun p r => exists a b text,
       cue_fields (snd p) a b text /\ r = srt_block (fst p) a b text)
    (fun '(i, segment) srt_content =>
       v ← getitem segment "start";
       t ← format_time v;
       let start := t ++ ",000" in
       v ← getitem segment "end";
       t ← format_time v;
       let end_ := t ++ ",000" in
       text ← getitem segment "text";
       Ok (srt_content ++ str_int i ++ nl ++ start ++ " --> " ++ end_ ++ nl
             ++ str str_float text ++ nl ++ nl))
    (enumerate segments 1)) with "" as (blocks & Hrun & Hblocks).
  - intros [i segment] acc Hs.
    destruct (well_formed_fields segment Hs)
      as (a & b & text & start & end_ & Es & Ee & Et & Ea & Eb).
    exists (srt_block i a b text). split.
    + unfold getitem, mbind, result_bind. rewrite Es, Ee, Et. cbn [bind].
      rewrite Ea, Eb. reflexivity.
    + exists a, b, text. split; [|reflexivity]. exists start, end_. auto.
  - exact (Forall_enumerate (fun segment => well_formed segment = true) _ _ Hwf).
  - exists blocks. split; [exact Hrun|]. split.
    + apply Forall2_length in Hblocks. now rewrite enumerate_length in Hblocks.
    + intros i segment Hi.
      assert (enumerate segments 1 !! i = Some (1 + Z.of_nat i, segment)) as Hp
        by (now rewrite enumerate_lookup, Hi).
      destruct (Forall2_lookup_l _ _ _ _ _ Hblocks Hp)
        as (r & Hr & a & b & text & Hf & ->).
      exists a, b, text. split; [exact Hf|]. rewrite Hr. simpl.
      now rewrite Z.add_comm.
Qed.

Lemma vtt_structure (segments : list (gmap string pyval)) :
  forallb well_formed segments = true ->
  exists cues : list string,
    create_vtt_content str_float segments =
      Ok (("WEBVTT" ++ nl ++ nl) ++ String.concat "" cues) /\
    length cues = length segments /\
    forall (i : nat) segment, segments !! i = Some segment ->
      exists a b text, cue_fields segment a b text /\
        cues !! i = Some (vtt_cue a b text).
Proof.
  intros Hwf%forallb_well_formed. unfold create_vtt_content.
  destruct (for_in_render
    (fun p : Z * gmap string pyval => well_formed (snd p) = true)
    (fun p r => exists a b text,
       cue_fields (snd p) a b text /\ r = vtt_cue a b text)
    (fun '(i, segment) vtt_content =>
       v ← getitem segment "start";
       start ← format_time v;
       v ← getitem segment "end";
       end_ ← format_time v;
       text ← getitem segment "text";
       Ok (vtt_content ++ start ++ ".000 --> " ++ end_ ++ ".000" ++ nl
             ++ str str_float text ++ nl ++ nl))
    (enumerate segments 1)) with ("WEBVTT" ++ nl ++ nl)
    as (cues & Hrun & Hcues).
  - intros [i segment] acc Hs.
    destruct (well_formed_fields segment Hs)
      as (a & b & text & start & end_ & Es & Ee & Et & Ea & Eb).
    exists (vtt_cue a b text). split.
    + unfold getitem, mbind, result_bind. rewrite Es, Ee, Et. cbn [bind].
      rewrite Ea, Eb. reflexivity.
    + exists a, b, text. split; [|reflexivity]. exists start, end_. auto.
  - exact (Forall_enumerate (fun segment => well_formed segment = true) _ _ Hwf).
  - exists cues. split; [exact Hrun|]. split.
    + apply Forall2_length in Hcues. now rewrite enumerate_length in Hcues.
    + intros i segment Hi.
      assert (enumerate segments 1 !! i = Some (1 + Z.of_nat i, segment)) as Hp
        by (now rewrite enumerate_lookup, Hi).
      destruct (Forall2_lookup_l _ _ _ _ _ Hcues Hp)
        as (r & Hr & a & b & text & Hf & ->).
      exists a, b, text. split; [exact Hf|]. now rewrite Hr.
Qed.

End SerializerProperties.

(** ** The CSV writer *)

Lemma join_append_data_spec (delimiter : ascii) (field : string) :
  csv.join_append_data delimiter field =
  (double_quotes field, needs_quotes delimiter field).
Proof.
  induction field as [|c rest IH]; [reflexivity|].
  cbn [csv.join_append_data double_quotes needs_quotes]. rewrite IH.
  unfold csv.special, csv.quotechar.
  destruct (Ascii.eqb_spec c DQUOTE) as [->|Hc].
  - rewrite orb_true_r. reflexivity.
  - rewrite orb_false_r. now destruct (_ || _).
Qed.

Lemma double_quotes_plain (delimiter : ascii) (field : string) :
  needs_quotes delimiter field = false -> double_quotes field = field.
Proof.
  induction field as [|c rest IH]; [reflexivity|].
  cbn [needs_quotes double_quotes]. unfold csv.special, csv.quotechar.
  destruct (Ascii.eqb c DQUOTE).
  - now rewrite orb_true_r.
  - intros [_ H]%orb_false_elim. now rewrite IH.
Qed.

Lemma join_append_quoted (delimiter : ascii) (field : string) :
  csv.join_append delimiter field = quoted_field delimiter field.
Proof.
  unfold csv.join_append, quoted_field. rewrite join_append_data_spec.
  destruct (needs_quotes delimiter field) eqn:E; [reflexivity|].
  now apply double_quotes_plain with delimiter.
Qed.

Lemma quoted_field_plain (delimiter : ascii) (field : string) :
  needs_quotes delimiter field = false -> quoted_field delimiter field = field.
Proof. unfold quoted_field. now intros ->. Qed.

Lemma needs_quotes_app (delimiter : ascii) (s t : string) :
  needs_quotes delimiter (s ++ t) =
  needs_quotes delimiter s || needs_quotes delimiter t.
Proof.
  induction s as [|c s IH]; [reflexivity|].
  rewrite append_cons. simpl. now rewrite IH, orb_assoc.
Qed.

Lemma needs_quotes_digits (d : Decimal.uint) :
  needs_quotes TAB (NilEmpty.string_of_uint d) = false.
Proof. induction d; simpl; auto. Qed.

Lemma needs_quotes_zeros (k : nat) : needs_quotes TAB (zeros k) = false.
Proof. induction k; simpl; auto. Qed.

Lemma needs_quotes_format_0d (width : nat) (z : Z) :
  needs_quotes TAB (format_0d width z) = false.
Proof.
  unfold format_0d, decimal.
  rewrite !needs_quotes_app, needs_quotes_zeros, needs_quotes_digits.
  now destruct (z <? 0)%Z.
Qed.

Lemma format_time_shape (v : pyval) (t : string) :
  format_time v = Ok t ->
  exists hours minutes seconds : Z,
    t = format_0d 2 hours ++ ":" ++ format_0d 2 minutes ++ ":"
          ++ format_0d 2 seconds.
Proof.
  unfold format_time, mbind, result_bind.
  destruct (format_time_locals v) as [[[[h m] s] ms]|e]; simpl; [|discriminate].
  intros [= <-]. eauto.
Qed.

Lemma format_time_plain (v : pyval) (t : string) :
  format_time v = Ok t -> needs_quotes TAB t = false.
Proof.
  intros (h & m & s & ->)%format_time_shape.
  now rewrite !needs_quotes_app, !needs_quotes_format_0d.
Qed.

Lemma record_three (delimiter : ascii) (x y z : string) :
  csv.record delimiter [x; y; z] =
  quoted_field delimiter x
    ++ String delimiter (quoted_field delimiter y
                           ++ String delimiter (quoted_field delimiter z)).
Proof.
  unfold csv.record. cbn [map csv.join]. rewrite !join_append_quoted.
  now destruct (quoted_field delimiter x).
Qed.

Lemma writerow_times_text (a b text output : string) :
  needs_quotes TAB a = false -> needs_quotes TAB b = false ->
  csv.writerow TAB [a; b; text] output = output ++ tsv_row a b text.
Proof.
  intros Ha Hb. unfold csv.writerow, tsv_row. rewrite record_three.
  rewrite (quoted_field_plain _ a Ha), (quoted_field_plain _ b Hb).
  unfold tab.
  repeat (rewrite append_cons || rewrite append_assoc || rewrite append_nil_l).
  reflexivity.
Qed.

(** ** Splitting into lines and fields *)

Lemma needs_quotes_has_char (s : string) :
  needs_quotes TAB s = false ->
  has_char TAB s = false /\ has_char CR s = false /\ has_char LF s = false /\
  has_char DQUOTE s = false.
Proof.
  induction s as [|c s IH]; [auto|].
  cbn [needs_quotes has_char]. intros [Hc Hs]%orb_false_elim.
  destruct (IH Hs) as (H1 & H2 & H3 & H4). rewrite H1, H2, H3, H4.
  unfold csv.special, csv.quotechar, csv.in_string in Hc. simpl in Hc.
  apply orb_false_elim in Hc as [[Htab Hq]%orb_false_elim Hnl].
  apply orb_false_elim in Hnl as [Hcr [Hlf _]%orb_false_elim].
  rewrite !orb_false_r. auto.
Qed.

Lemma has_char_app (c : ascii) (s t : string) :
  has_char c (s ++ t) = has_char c s || has_char c t.
Proof.
  induction s as [|c' s IH]; [reflexivity|].
  rewrite append_cons. simpl. now rewrite IH, orb_assoc.
Qed.

Lemma split_on_plain (sep : ascii) (s : string) :
  has_char sep s = false -> split_on sep s = [s].
Proof.
  induction s as [|c s IH]; [reflexivity|].
  cbn [has_char split_on]. intros [Hc Hs]%orb_false_elim.
  now rewrite Hc, (IH Hs).
Qed.

Lemma split_on_app (sep : ascii) (s t : string) :
  has_char sep s = false ->
  split_on sep (s ++ String sep t) = s :: split_on sep t.
Proof.
  induction s as [|c s IH].
  - intros _. rewrite append_nil_l. cbn [split_on]. now rewrite Ascii.eqb_refl.
  - cbn [has_char]. intros [Hc Hs]%orb_false_elim.
    rewrite append_cons. cbn [split_on]. now rewrite Hc, (IH Hs).
Qed.

Lemma split_on_three (sep : ascii) (a b text : string) :
  has_char sep a = false -> has_char sep b = false ->
  has_char sep text = false ->
  split_on sep (a ++ String sep "" ++ b ++ String sep "" ++ text) = [a; b; text].
Proof.
  intros Ha Hb Ht.
  change (String sep "" ++ b ++ String sep "" ++ text)
    with (String sep (b ++ String sep text)).
  now rewrite !split_on_app, split_on_plain.
Qed.

Lemma lines_crlf_cons (c : ascii) (s : string) :
  Ascii.eqb c CR = false -> s <> "" ->
  lines_crlf (String c s) = push_char c (lines_crlf s).
Proof.
  intros Hc Hs. destruct s as [|c' s']; [contradiction|].
  cbn [lines_crlf]. now rewrite Hc.
Qed.

Lemma lines_crlf_line (body rest : string) :
  has_char CR body = false ->
  lines_crlf (body ++ csv.lineterminator ++ rest) = body :: lines_crlf rest.
Proof.
  induction body as [|c body IH].
  - intros _. reflexivity.
  - cbn [has_char]. intros [Hc Hs]%orb_false_elim.
    rewrite append_cons, lines_crlf_cons, (IH Hs); try assumption.
    + reflexivity.
    + now destruct body.
Qed.

(** ** Shape of the TSV output *)

Section TsvProperties.

Variable str_float : pyfloat -> string.

Lemma tsv_rows (segments : list (gmap string pyval)) :
  forallb well_formed segments = true ->
  exists rows : list string,
    create_tsv_content str_float segments =
      Ok (tsv_header ++ String.concat "" rows) /\
    Forall2 (fun segment r =>
               exists a b text, cue_fields segment a b text /\ r = tsv_row a b text)
            segments rows.
Proof.
  intros Hwf%forallb_well_formed. unfold create_tsv_content.
  change (csv.writerow TAB ["Start"; "End"; "Text"] "") with tsv_header.
  apply for_in_render with (ok := fun segment => well_formed segment = true);
    [|exact Hwf].
  intros segment acc Hs.
  destruct (well_formed_fields segment Hs)
    as (a & b & text & start & end_ & Es & Ee & Et & Ea & Eb).
  exists (tsv_row a b text). split.
  - unfold getitem, mbind, result_bind. rewrite Es, Ee, Et. cbn [bind].
    rewrite Ea, Eb. cbn [bind str]. f_equal.
    apply writerow_times_text; eapply format_time_plain; eassumption.
  - exists a, b, text. split; [|reflexivity]. exists start, end_. auto.
Qed.

Lemma grid_crlf_rows (segments : list (gmap string pyval)) (rs : list string) :
  Forall2 (fun segment r =>
             exists a b text, cue_fields segment a b text /\ r = tsv_row a b text)
          segments rs ->
  Forall (fun segment => plain_text segment = true) segments ->
  exists rows : list (list string),
    Forall2 (fun segment row =>
               exists a b text, cue_fields segment a b text /\ row = [a; b; text])
            segments rows /\
    grid_crlf (String.concat "" rs) = rows.
Proof.
  induction 1 as [|segment r segments rs (a & b & text & Hf & ->) _ IH].
  - intros _. exists []. split; [constructor|reflexivity].
  - intros Hp. apply Forall_cons in Hp as [Hp Hps].
    destruct (IH Hps) as (rows & Hrows & Hgrid).
    exists ([a; b; text] :: rows). split.
    + constructor; [|exact Hrows]. exists a, b, text. auto.
    + destruct Hf as (start & end_ & Es & Ee & Et & Ea & Eb).
      unfold plain_text in Hp. rewrite Et in Hp. apply negb_true_iff in Hp.
      pose proof (format_time_plain _ _ Ea) as Ha.
      pose proof (format_time_plain _ _ Eb) as Hb.
      destruct (needs_quotes_has_char _ Ha) as (Ha1 & Ha2 & _).
      destruct (needs_quotes_has_char _ Hb) as (Hb1 & Hb2 & _).
      destruct (needs_quotes_has_char _ Hp) as (Hp1 & Hp2 & _).
      rewrite concat_cons. unfold tsv_row, grid_crlf.
      rewrite (quoted_field_plain _ _ Hp).
      replace ((a ++ tab ++ b ++ tab ++ text ++ csv.lineterminator)
                 ++ String.concat "" rs)
        with ((a ++ tab ++ b ++ tab ++ text) ++ csv.lineterminator
                 ++ String.concat "" rs)
        by (now rewrite !append_assoc).
      rewrite lines_crlf_line.
      * cbn [map]. f_equal; [|exact Hgrid].
        now apply split_on_three.
      * rewrite !has_char_app, Ha2, Hb2, Hp2. reflexivity.
Qed.

Lemma tsv_round_trip_crlf (segments : list (gmap string pyval)) :
  forallb well_formed segments = true ->
  forallb plain_text segments = true ->
  tsv_round_trip str_float grid_crlf segments.
Proof.
  intros Hwf Hplain.
  destruct (tsv_rows segments Hwf) as (rs & Hrun & Hrs).
  destruct (grid_crlf_rows segments rs Hrs) as (rows & Hrows & Hgrid).
  { clear -Hplain. induction segments as [|segment rest IH]; [constructor|].
    simpl in Hplain. apply andb_prop in Hplain as [H1 H2]. constructor; auto. }
  exists (tsv_header ++ String.concat "" rs), rows.
  split; [exact Hrun|]. split; [exact Hrows|].
  unfold grid_crlf in *.
  change tsv_header
    with (("Start" ++ tab ++ "End" ++ tab ++ "Text") ++ csv.lineterminator).
  rewrite append_assoc, lines_crlf_line by reflexivity.
  cbn [map]. now rewrite Hgrid.
Qed.

End TsvProperties.

(** ** Loops that raise *)

Lemma for_in_raise {A S : Type} (ok : A -> Prop) (body : A -> S -> result S)
    (xs : list A) (x : A) (ys : list A) (e : pyexc) :
  (forall x acc, ok x -> exists acc', body x acc = Ok acc') ->
  Forall ok xs ->
  (forall acc, body x acc = Raise e) ->
  forall acc, for_in (xs ++ x :: ys) body acc = Raise e.
Proof.
  intros Hbody Hok Hx. induction Hok as [|x' xs Hx' _ IH]; intros acc.
  - cbn [app for_in]. unfold mbind, result_bind. now rewrite Hx.
  - destruct (Hbody x' acc Hx') as [acc' Hacc].
    rewrite <- app_comm_cons. cbn [for_in]. unfold mbind, result_bind.
    rewrite Hacc. cbn [bind]. apply IH.
Qed.

Lemma enumerate_app {A : Type} (xs ys : list A) (start : Z) :
  enumerate (xs ++ ys) start =
  (enumerate xs start ++ enumerate ys (start + Z.of_nat (length xs)))%list.
Proof.
  revert start. induction xs as [|x xs IH]; intros start.
  - simpl. now rewrite Z.add_0_r.
  - cbn [app enumerate length]. rewrite IH. simpl. do 3 f_equal. lia.
Qed.

Lemma missing_key_cases (segment : gmap string pyval) (key : string) :
  missing_key segment = Some key ->
  (key = "start" /\ segment !! "start" = None) \/
  (exists a ta, segment !! "start" = Some a /\ format_time a = Ok ta /\
     ((key = "end" /\ segment !! "end" = None) \/
      (exists b tb, segment !! "end" = Some b /\ format_time b = Ok tb /\
         key = "text" /\ segment !! "text" = None))).
Proof.
  unfold missing_key.
  destruct (segment !! "start") as [a|]; [|intros [= <-]; auto].
  destruct (timestamp a) eqn:Ha; [|discriminate].
  destruct (format_time_returns a Ha) as [ta Hta].
  destruct (segment !! "end") as [b|]; [|intros [= <-]; right; eauto 10].
  destruct (timestamp b) eqn:Hb; [|discriminate].
  destruct (format_time_returns b Hb) as [tb Htb].
  destruct (segment !! "text") as [t|]; [discriminate|].
  intros [= <-]. right. eauto 12.
Qed.

Section ErrorProperties.

Variable str_float : pyfloat -> string.

Lemma srt_missing_key (pre post : list (gmap string pyval))
    (segment : gmap string pyval) (key : string) :
  forallb well_formed pre = true -> missing_key segment = Some key ->
  create_srt_content str_float (pre ++ segment :: post) = Raise (KeyError key).
Proof.
  intros Hwf%forallb_well_formed Hkey. unfold create_srt_content.
  rewrite enumerate_app. cbn [enumerate].
  apply for_in_raise
    with (ok := fun p : Z * gmap string pyval => well_formed (snd p) = true).
  - intros [i s] acc Hs.
    destruct (well_formed_fields s Hs)
      as (a & b & text & start & end_ & Es & Ee & Et & Ea & Eb).
    unfold getitem, mbind, result_bind. rewrite Es, Ee, Et. cbn [bind].
    rewrite Ea, Eb. cbn [bind]. eauto.
  - exact (Forall_enumerate (fun s => well_formed s = true) _ _ Hwf).
  - intros acc. unfold getitem, mbind, result_bind.
    destruct (missing_key_cases _ _ Hkey)
      as [[-> Es]|(a & ta & Es & Ea & [[-> Ee]|(b & tb & Ee & Eb & -> & Et)])];
      rewrite Es; cbn [bind]; try rewrite Ea; try rewrite Ee; cbn [bind];
      try rewrite Eb; cbn [bind]; try rewrite Et; reflexivity.
Qed.

Lemma vtt_missing_key (pre post : list (gmap string pyval))
    (segment : gmap string pyval) (key : string) :
  forallb well_formed pre = true -> missing_key segment = Some key ->
  create_vtt_content str_float (pre ++ segment :: post) = Raise (KeyError key).
Proof.
  intros Hwf%forallb_well_formed Hkey. unfold create_vtt_content.
  rewrite enumerate_app. cbn [enumerate].
  apply for_in_raise
    with (ok := fun p : Z * gmap string pyval => well_formed (snd p) = true).
  - intros [i s] acc Hs.
    destruct (well_formed_fields s Hs)
      as (a & b & text & start & end_ & Es & Ee & Et & Ea & Eb).
    unfold getitem, mbind, result_bind. rewrite Es, Ee, Et. cbn [bind].
    rewrite Ea, Eb. cbn [bind]. eauto.
  - exact (Forall_enumerate (fun s => well_formed s = true) _ _ Hwf).
  - intros acc. unfold getitem, mbind, result_bind.
    destruct (missing_key_cases _ _ Hkey)
      as [[-> Es]|(a & ta & Es & Ea & [[-> Ee]|(b & tb & Ee & Eb & -> & Et)])];
      rewrite Es; cbn [bind]; try rewrite Ea; try rewrite Ee; cbn [bind];
      try rewrite Eb; cbn [bind]; try rewrite Et; reflexivity.
Qed.

Lemma tsv_missing_key (pre post : list (gmap string pyval))
    (segment : gmap string pyval) (key : string) :
  forallb well_formed pre = true -> missing_key segment = Some key ->
  create_tsv_content str_float (pre ++ segment :: post) = Raise (KeyError key).
Proof.
  intros Hwf%forallb_well_formed Hkey. unfold create_tsv_content.
  apply for_in_raise with (ok := fun s => well_formed s = true).
  - intros s acc Hs.
    destruct (well_formed_fields s Hs)
      as (a & b & text & start & end_ & Es & Ee & Et & Ea & Eb).
    unfold getitem, mbind, result_bind. rewrite Es, Ee, Et. cbn [bind].
    rewrite Ea, Eb. cbn [bind]. eauto.
  - exact Hwf.
  - intros acc. unfold getitem, mbind, result_bind.
    destruct (missing_key_cases _ _ Hkey)
      as [[-> Es]|(a & ta & Es & Ea & [[-> Ee]|(b & tb & Ee & Eb & -> & Et)])];
      rewrite Es; cbn [bind]; try rewrite Ea; try rewrite Ee; cbn [bind];
      try rewrite Eb; cbn [bind]; try rewrite Et; reflexivity.
Qed.

End ErrorProperties.

(** ** Reading back what the writer wrote *)

Lemma push_string_nil (rows : list (list string)) : push_string "" rows = rows.
Proof. destruct rows as [|[|field fields] rest]; reflexivity. Qed.

Lemma push_string_cons (c : ascii) (s : string) (rows : list (list string)) :
  push_string (String c s) rows = push_string (String c "") (push_string s rows).
Proof. destruct rows as [|[|field fields] rest]; reflexivity. Qed.

Lemma read_quoted (field rest : string) :
  read_from TAB IN_QUOTED_FIELD (double_quotes field ++ String DQUOTE rest) =
  push_string field (read_from TAB QUOTE_IN_QUOTED_FIELD rest).
Proof.
  induction field as [|c field IH].
  - rewrite push_string_nil. reflexivity.
  - rewrite push_string_cons, <- IH. cbn [double_quotes].
    destruct (Ascii.eqb_spec c DQUOTE) as [->|Hc].
    + reflexivity.
    + rewrite append_cons. cbn [read_from reader_step].
      unfold csv.quotechar. apply Ascii.eqb_neq in Hc. now rewrite Hc.
Qed.

Lemma special_false (c : ascii) :
  csv.special TAB c = false ->
  Ascii.eqb c TAB = false /\ Ascii.eqb c DQUOTE = false /\
  Ascii.eqb c CR = false /\ Ascii.eqb c LF = false.
Proof.
  unfold csv.special, csv.quotechar, csv.in_string. simpl.
  intros [[H1 H2]%orb_false_elim [H3 [H4 _]%orb_false_elim]%orb_false_elim]%orb_false_elim.
  auto.
Qed.

Lemma read_unquoted (field rest : string) :
  needs_quotes TAB field = false ->
  read_from TAB IN_FIELD (field ++ rest) =
  push_string field (read_from TAB IN_FIELD rest).
Proof.
  induction field as [|c field IH]; intros Hf.
  - rewrite push_string_nil. reflexivity.
  - cbn [needs_quotes] in Hf. apply orb_false_elim in Hf as [Hc Hf].
    destruct (special_false c Hc) as (H1 & H2 & H3 & H4).
    rewrite push_string_cons, <- (IH Hf), append_cons.
    cbn [read_from reader_step]. now rewrite H1, H3, H4.
Qed.

Lemma read_field_end (rest : string) :
  ends_field rest ->
  read_from TAB START_FIELD rest = read_from TAB IN_FIELD rest /\
  read_from TAB QUOTE_IN_QUOTED_FIELD rest = read_from TAB IN_FIELD rest.
Proof. intros (c & rest' & -> & [-> | ->]); split; reflexivity. Qed.

Lemma read_field (field rest : string) :
  ends_field rest ->
  read_from TAB START_FIELD (quoted_field TAB field ++ rest) =
  push_string field (read_from TAB IN_FIELD rest).
Proof.
  intros Hrest. destruct (read_field_end rest Hrest) as [Hs Hq].
  unfold quoted_field. destruct (needs_quotes TAB field) eqn:Hf.
  - rewrite append_cons, append_assoc, append_cons, append_nil_l.
    cbn [read_from reader_step]. unfold start_field. cbn.
    now rewrite read_quoted, Hq.
  - destruct field as [|c field].
    + rewrite append_nil_l, push_string_nil. exact Hs.
    + cbn [needs_quotes] in Hf. apply orb_false_elim in Hf as [Hc Hf].
      destruct (special_false c Hc) as (H1 & H2 & H3 & H4).
      rewrite push_string_cons, <- (read_unquoted field rest Hf), append_cons.
      cbn [read_from reader_step]. unfold start_field, csv.quotechar.
      now rewrite H1, H2, H3, H4.
Qed.

Lemma read_fields (fields : list string) (field rest : string) :
  read_from TAB START_FIELD
    (csv.join TAB (map (quoted_field TAB) (field :: fields))
       ++ csv.lineterminator ++ rest) =
  (field :: fields) :: read_from TAB START_RECORD rest.
Proof.
  change (csv.lineterminator ++ rest) with (String CR (String LF rest)).
  revert field. induction fields as [|field' fields IH]; intros field.
  - cbn [map csv.join]. rewrite read_field.
    + cbn [read_from reader_step]. cbn. now rewrite append_nil_r.
    + exists CR, (String LF rest). auto.
  - change (csv.join TAB (map (quoted_field TAB) (field :: field' :: fields)))
      with (quoted_field TAB field
              ++ String TAB (csv.join TAB (map (quoted_field TAB) (field' :: fields)))).
    rewrite append_assoc, append_cons, read_field.
    + cbn [read_from reader_step]. cbn [Ascii.eqb TAB CR LF Bool.eqb perform].
      rewrite IH. cbn. now rewrite append_nil_r.
    + eexists TAB, _. auto.
Qed.

Lemma quoted_field_head (field : string) :
  (field = "" /\ quoted_field TAB field = "") \/
  (exists c s, quoted_field TAB field = String c s /\
     Ascii.eqb c CR = false /\ Ascii.eqb c LF = false).
Proof.
  unfold quoted_field. destruct (needs_quotes TAB field) eqn:Hf.
  - right. eexists _, _. split; [reflexivity|]. split; reflexivity.
  - destruct field as [|c field]; [auto|]. right.
    cbn [needs_quotes] in Hf. apply orb_false_elim in Hf as [Hc _].
    destruct (special_false c Hc) as (_ & _ & H3 & H4). eauto.
Qed.

Lemma join_head (field : string) (fields : list string) :
  (field = "" /\ fields = [] /\
   csv.join TAB (map (quoted_field TAB) (field :: fields)) = "") \/
  (exists c s,
     csv.join TAB (map (quoted_field TAB) (field :: fields)) = String c s /\
     Ascii.eqb c CR = false /\ Ascii.eqb c LF = false).
Proof.
  destruct fields as [|field' fields].
  - cbn [map csv.join].
    destruct (quoted_field_head field) as [[-> H]|(c & s & H & Hc)]; [auto|].
    right. eauto.
  - right.
    change (csv.join TAB (map (quoted_field TAB) (field :: field' :: fields)))
      with (quoted_field TAB field
              ++ String TAB (csv.join TAB (map (quoted_field TAB) (field' :: fields)))).
    destruct (quoted_field_head field) as [[-> ->]|(c & s & -> & Hc)].
    + rewrite append_nil_l. eexists _, _. split; [reflexivity|]. split; reflexivity.
    + rewrite append_cons. eauto.
Qed.

Lemma read_start_record (c : ascii) (s : string) :
  Ascii.eqb c CR = false -> Ascii.eqb c LF = false ->
  read_from TAB START_RECORD (String c s) = read_from TAB START_FIELD (String c s).
Proof.
  intros H1 H2. cbn [read_from reader_step]. unfold start_record.
  now rewrite H1, H2.
Qed.

Lemma read_record (row : list string) (rest : string) :
  read_from TAB START_RECORD (csv.record TAB row ++ csv.lineterminator ++ rest) =
  row :: read_from TAB START_RECORD rest.
Proof.
  destruct row as [|field fields]; [reflexivity|].
  pose proof (read_fields fields field rest) as Hread.
  unfold csv.record.
  replace (map (csv.join_append TAB) (field :: fields))
    with (map (quoted_field TAB) (field :: fields))
    by (apply map_ext; intros; symmetry; apply join_append_quoted).
  destruct (join_head field fields) as [(-> & -> & E)|(c & s & E & H1 & H2)];
    rewrite E in *.
  - reflexivity.
  - rewrite append_cons, read_start_record by assumption.
    rewrite <- append_cons. exact Hread.
Qed.

Lemma read_rows_written (rows : list (list string)) :
  read_rows TAB (written TAB rows) = rows.
Proof.
  unfold read_rows, written. induction rows as [|row rows IH]; [reflexivity|].
  cbn [map]. rewrite concat_cons, append_assoc, read_record. now rewrite IH.
Qed.

Section TsvReadBack.

Variable str_float : pyfloat -> string.

Lemma tsv_written (segments : list (gmap string pyval)) :
  forallb well_formed segments = true ->
  exists grid : list (list string),
    create_tsv_content str_float segments =
      Ok (written TAB (["Start"; "End"; "Text"] :: grid)) /\
    Forall2 (fun segment row =>
               exists a b text, cue_fields segment a b text /\ row = [a; b; text])
            segments grid.
Proof.
  intros Hwf%forallb_well_formed. unfold create_tsv_content.
  assert (forall acc, exists grid,
    for_in segments
      (fun segment output =>
         v ← getitem segment "start";
         start ← format_time v;
         v ← getitem segment "end";
         end_ ← format_time v;
         text ← getitem segment "text";
         Ok (csv.writerow TAB [start; end_; str str_float text] output)) acc
      = Ok (acc ++ written TAB grid) /\
    Forall2 (fun segment row =>
               exists a b text, cue_fields segment a b text /\ row = [a; b; text])
            segments grid) as Hloop.
  { induction Hwf as [|segment rest Hs _ IH]; intros acc.
    - exists []. split; [|constructor]. cbn. now rewrite append_nil_r.
    - destruct (well_formed_fields segment Hs)
        as (a & b & text & start & end_ & Es & Ee & Et & Ea & Eb).
      destruct (IH (csv.writerow TAB [a; b; text] acc)) as (grid & Hrun & Hgrid).
      exists ([a; b; text] :: grid). split.
      + rewrite (for_in_cons_ok _ _ _ _ (csv.writerow TAB [a; b; text] acc)).
        * rewrite Hrun. unfold csv.writerow, written. cbn [map].
          now rewrite concat_cons, !append_assoc.
        * unfold getitem, mbind, result_bind.
          rewrite Es, Ee, Et. cbn [bind]. now rewrite Ea, Eb.
      + constructor; [|exact Hgrid]. exists a, b, text. split; [|reflexivity].
        exists start, end_. auto. }
  destruct (Hloop (csv.writerow TAB ["Start"; "End"; "Text"] ""))
    as (grid & Hrun & Hgrid).
  exists grid. split; [|exact Hgrid]. rewrite Hrun. f_equal.
  unfold written at 2. cbn [map]. now rewrite concat_cons.
Qed.

End TsvReadBack.

(** * The claims *)

(** ** Timestamps *)

(** C8, as stated, fails from 2^53 seconds on, where the quotient of a
    float by 3600 is rounded: at 10^22 seconds the hours written are
    2777777777777777664, and the hours of 10^22 seconds are
    2777777777777777777. *)
Lemma format_time_rounds_large_hours :
  format_time (flt (inject_Z (10 ^ 22))) = Ok "2777777777777777664:46:40" /\
  whole_seconds (flt (inject_Z (10 ^ 22))) / 3600 = 2777777777777777777 /\
  decimal_value "2777777777777777664"
    <> Some (Z.to_N (whole_seconds (flt (inject_Z (10 ^ 22))) / 3600)).
Proof.
  split; [vm_compute; reflexivity|]. split; [vm_compute; reflexivity|].
  vm_compute. discriminate.
Qed.

(** C8, amended: for a number of seconds from 0 up to 2^53 [format_time]
    returns [HH:MM:SS], where the three fields are the decimal renderings of
    the hours, minutes and seconds of the whole seconds of the input (the
    fraction is dropped); the minutes and the seconds are below 60 and take
    exactly two digits, the hours take at least two and, from 100 hours on,
    as many as they need; zero seconds give [00:00:00]. *)
Theorem format_time_nonnegative (v : pyval) :
  timestamp v = true -> negative v = false -> whole_seconds v < 2 ^ 53 ->
  exists (h m s : N) (HH MM SS : string),
    format_time v = Ok (HH ++ ":" ++ MM ++ ":" ++ SS) /\
    Z.of_N h * 3600 + Z.of_N m * 60 + Z.of_N s = whole_seconds v /\
    (m < 60)%N /\ (s < 60)%N /\
    decimal_value HH = Some h /\ (2 <= String.length HH)%nat /\
    ((100 <= h)%N -> HH = decimal h /\ (3 <= String.length HH)%nat) /\
    decimal_value MM = Some m /\ String.length MM = 2%nat /\
    decimal_value SS = Some s /\ String.length SS = 2%nat /\
    format_time (itg 0) = Ok "00:00:00" /\ format_time (flt 0) = Ok "00:00:00".
Proof.
  intros Ht Hn Hlt. pose proof (whole_seconds_nonneg v Ht Hn) as Hw.
  rewrite (format_time_whole v Ht Hn Hlt), format_time_int.
  set (t := whole_seconds v) in *.
  assert (0 <= t / 3600) as Hh by (apply Z.div_pos; lia).
  pose proof (Z.mod_pos_bound t 3600 ltac:(lia)) as Hr.
  pose proof (Z.mod_pos_bound t 60 ltac:(lia)) as Hs.
  assert (0 <= t mod 3600 / 60 < 60) as Hm
    by (split; [apply Z.div_pos; lia|apply Z.div_lt_upper_bound; lia]).
  exists (Z.to_N (t / 3600)), (Z.to_N (t mod 3600 / 60)), (Z.to_N (t mod 60)).
  eexists _, _, _. split; [reflexivity|].
  rewrite !Z2N.id by lia.
  repeat split.
  - pose proof (Z.div_mod t 3600 ltac:(lia)) as E1.
    pose proof (Z.div_mod (t mod 3600) 60 ltac:(lia)) as E2.
    assert ((t mod 3600) mod 60 = t mod 60) as E3.
    { apply Z.mod_mod_divide. exists 60. lia. }
    lia.
  - lia.
  - lia.
  - now apply format_0d_value.
  - rewrite format_0d_length by lia. lia.
  - apply format_0d_wide; [lia|].
    pose proof (length_decimal_from_100 (Z.to_N (t / 3600)) H). lia.
  - rewrite format_0d_length by lia.
    pose proof (length_decimal_from_100 (Z.to_N (t / 3600)) H). lia.
  - apply format_0d_value. lia.
  - apply format_0d_two_digits. lia.
  - apply format_0d_value. lia.
  - apply format_0d_two_digits. lia.
Qed.

Lemma format_time_nonnegative_witness :
  exists (h m s : N) (HH MM SS : string),
    format_time (flt 3661.5) = Ok (HH ++ ":" ++ MM ++ ":" ++ SS) /\
    Z.of_N h * 3600 + Z.of_N m * 60 + Z.of_N s = 3661 /\
    (m < 60)%N /\ (s < 60)%N /\
    decimal_value HH = Some h /\ (2 <= String.length HH)%nat /\
    ((100 <= h)%N -> HH = decimal h /\ (3 <= String.length HH)%nat) /\
    decimal_value MM = Some m /\ String.length MM = 2%nat /\
    decimal_value SS = Some s /\ String.length SS = 2%nat /\
    format_time (itg 0) = Ok "00:00:00" /\ format_time (flt 0) = Ok "00:00:00".
Proof.
  apply (format_time_nonnegative (flt 3661.5)); reflexivity.
Defined.

(** C1: the serializers do not carry the milliseconds of a segment: at
    3661.5 seconds [format_time] returns [01:01:01], SRT and VTT write
    [,000] and [.000] after it, and whatever the input, the local
    [milliseconds] of [format_time] is 0 and is not part of the returned
    string. *)
Theorem milliseconds_not_rendered :
  format_time (flt 3661.5) = Ok "01:01:01" /\
  create_srt_content no_float [segment_of (flt 3661.5) (flt 3662.25) "x"] =
    Ok ("1" ++ nl ++ "01:01:01,000 --> 01:01:02,000" ++ nl ++ "x" ++ nl ++ nl) /\
  create_vtt_content no_float [segment_of (flt 3661.5) (flt 3662.25) "x"] =
    Ok ("WEBVTT" ++ nl ++ nl ++ "01:01:01.000 --> 01:01:02.000" ++ nl ++ "x"
          ++ nl ++ nl) /\
  forall seconds : pyval,
    match format_time_locals seconds with
    | Ok (_, _, _, milliseconds) => milliseconds = 0
    | Raise _ => True
    end.
Proof.
  split; [reflexivity|].
  split; [vm_compute; reflexivity|]. split; [vm_compute; reflexivity|].
  intros [[z|[q|negative|]]|s]; try exact I.
  - change (PyNum (NInt z)) with (itg z).
    now rewrite format_time_locals_int.
  - change (PyNum (NFloat (FFinite q))) with (flt q).
    now destruct (format_time_locals_finite q) as (h & m & s' & ->).
Qed.

(** C6, as stated, fails: [format_time(-1)] returns [-1:59:59]; it raises
    nothing, so no [InvalidTimestamp] either. *)
Lemma format_time_minus_one :
  format_time (itg (-1)) = Ok "-1:59:59" /\
  ~ (exists arg, format_time (itg (-1)) = Raise (InvalidTimestamp arg)).
Proof.
  split; [reflexivity|]. intros [arg H]. discriminate H.
Qed.

(** C6, amended: for a negative [int] or finite [float] above -2^53,
    [format_time] raises nothing and returns a string: a minus sign, the
    digits of the hours, which are the floor of the seconds over 3600, and
    two fields of two digits for the minutes and the seconds.  For an [int]
    these are the minutes and seconds of the time of day, below 60; for a
    [float] they come from a remainder that may round up to the divisor, and
    reach 60. *)
Theorem format_time_negative (v : pyval) :
  timestamp v = true -> negative v = true -> - 2 ^ 53 < whole_seconds v ->
  exists (hours minutes seconds : Z),
    hours = whole_seconds v / 3600 /\ hours < 0 /\
    0 <= minutes <= 60 /\ 0 <= seconds <= 60 /\
    format_time v =
      Ok (String "-" (decimal (Z.abs_N hours)) ++ ":" ++ format_0d 2 minutes
            ++ ":" ++ format_0d 2 seconds) /\
    String.length (format_0d 2 minutes) = 2%nat /\
    String.length (format_0d 2 seconds) = 2%nat /\
    forall z : Z, v = itg z ->
      minutes = (z mod 3600) / 60 /\ seconds = z mod 60 /\
      minutes < 60 /\ seconds < 60.
Proof.
  intros Ht Hn Hlow. pose proof (whole_seconds_negative v Ht Hn) as Hw.
  assert (whole_seconds v / 3600 < 0) as Hh
    by (apply Z.div_lt_upper_bound; lia).
  assert (format_0d 2 (whole_seconds v / 3600)
          = String "-" (decimal (Z.abs_N (whole_seconds v / 3600)))) as Hfmt.
  { unfold format_0d. destruct (Z.ltb_spec (whole_seconds v / 3600) 0); [|lia].
    pose proof (length_decimal_pos (Z.abs_N (whole_seconds v / 3600))).
    simpl String.length.
    replace (2 - 1 - _)%nat with 0%nat by lia. reflexivity. }
  destruct (timestamp_cases v Ht) as [[z ->]|[q ->]].
  - cbn [whole_seconds itg] in *.
    pose proof (Z.mod_pos_bound z 3600 ltac:(lia)) as Hr.
    pose proof (Z.mod_pos_bound z 60 ltac:(lia)) as Hs.
    assert (0 <= z mod 3600 / 60 < 60) as Hm
      by (split; [apply Z.div_pos; lia|apply Z.div_lt_upper_bound; lia]).
    exists (z / 3600), (z mod 3600 / 60), (z mod 60).
    split; [reflexivity|]. split; [exact Hh|]. split; [lia|]. split; [lia|].
    split; [now rewrite (format_time_int z), Hfmt|].
    split; [apply format_0d_two_digits; lia|].
    split; [apply format_0d_two_digits; lia|].
    intros z' [= <-]. lia.
  - cbn [whole_seconds flt] in *.
    destruct (format_time_locals_negative q ltac:(lia))
      as (minutes & seconds & Hloc & Hm & Hs).
    exists (Qfloor q / 3600), minutes, seconds.
    split; [reflexivity|]. split; [exact Hh|]. split; [exact Hm|].
    split; [exact Hs|].
    split.
    { unfold format_time. rewrite Hloc.
      cbn [mbind result_bind bind]. now rewrite Hfmt. }
    split; [apply format_0d_two_digits; lia|].
    split; [apply format_0d_two_digits; lia|].
    intros z [=].
Qed.

Lemma format_time_negative_witness :
  exists (hours minutes seconds : Z),
    hours = whole_seconds (flt (-2.5)) / 3600 /\ hours < 0 /\
    0 <= minutes <= 60 /\ 0 <= seconds <= 60 /\
    format_time (flt (-2.5)) =
      Ok (String "-" (decimal (Z.abs_N hours)) ++ ":" ++ format_0d 2 minutes
            ++ ":" ++ format_0d 2 seconds) /\
    String.length (format_0d 2 minutes) = 2%nat /\
    String.length (format_0d 2 seconds) = 2%nat /\
    forall z : Z, flt (-2.5) = itg z ->
      minutes = (z mod 3600) / 60 /\ seconds = z mod 60 /\
      minutes < 60 /\ seconds < 60.
Proof.
  apply (format_time_negative (flt (-2.5))); reflexivity.
Defined.

(** ** SRT and VTT *)

(** C2: for well-formed segments the SRT output is the concatenation of one
    block for each segment, in order; block [i] (counted from 1) is the
    decimal [i], a newline, the start and end timecodes joined by [" --> "],
    a newline, the text, a newline and an empty line. *)
Theorem srt_numbered_blocks (str_float : pyfloat -> string)
    (segments : list (gmap string pyval)) :
  forallb well_formed segments = true ->
  exists blocks : list string,
    create_srt_content str_float segments = Ok (String.concat "" blocks) /\
    length blocks = length segments /\
    forall (i : nat) segment, segments !! i = Some segment ->
      exists a b text, cue_fields segment a b text /\
        blocks !! i =
          Some (decimal (N.of_nat (i + 1)) ++ nl
                  ++ (a ++ ",000") ++ " --> " ++ (b ++ ",000") ++ nl
                  ++ text ++ nl ++ nl).
Proof.
  intros Hwf.
  destruct (srt_structure str_float segments Hwf) as (blocks & Hrun & Hlen & Hb).
  exists blocks. split; [exact Hrun|]. split; [exact Hlen|].
  intros i segment Hi. destruct (Hb i segment Hi) as (a & b & text & Hf & Hblock).
  exists a, b, text. split; [exact Hf|]. rewrite Hblock. unfold srt_block.
  rewrite str_int_nonneg by lia. do 3 f_equal. lia.
Qed.

Lemma srt_numbered_blocks_witness :
  exists blocks : list string,
    create_srt_content no_float hello_world = Ok (String.concat "" blocks) /\
    length blocks = length hello_world /\
    forall (i : nat) segment, hello_world !! i = Some segment ->
      exists a b text, cue_fields segment a b text /\
        blocks !! i =
          Some (decimal (N.of_nat (i + 1)) ++ nl
                  ++ (a ++ ",000") ++ " --> " ++ (b ++ ",000") ++ nl
                  ++ text ++ nl ++ nl).
Proof.
  apply (srt_numbered_blocks no_float hello_world). reflexivity.
Defined.

(** C7: for well-formed segments the VTT output is [WEBVTT], an empty line,
    and then one cue for each segment, in order; a cue is the line of the
    two timecodes, the text and an empty line, with no index line. *)
Theorem vtt_header_and_cues (str_float : pyfloat -> string)
    (segments : list (gmap string pyval)) :
  forallb well_formed segments = true ->
  exists cues : list string,
    create_vtt_content str_float segments =
      Ok ("WEBVTT" ++ nl ++ nl ++ String.concat "" cues) /\
    length cues = length segments /\
    forall (i : nat) segment, segments !! i = Some segment ->
      exists a b text, cue_fields segment a b text /\
        cues !! i =
          Some ((a ++ ".000") ++ " --> " ++ (b ++ ".000") ++ nl
                  ++ text ++ nl ++ nl).
Proof.
  intros Hwf.
  destruct (vtt_structure str_float segments Hwf) as (cues & Hrun & Hlen & Hc).
  exists cues. split; [|split; [exact Hlen|]].
  - rewrite Hrun. reflexivity.
  - intros i segment Hi. destruct (Hc i segment Hi) as (a & b & text & Hf & Hcue).
    exists a, b, text. split; [exact Hf|]. rewrite Hcue. unfold vtt_cue.
    f_equal. rewrite !append_assoc. reflexivity.
Qed.

Lemma vtt_header_and_cues_witness :
  exists cues : list string,
    create_vtt_content no_float hello_world =
      Ok ("WEBVTT" ++ nl ++ nl ++ String.concat "" cues) /\
    length cues = length hello_world /\
    forall (i : nat) segment, hello_world !! i = Some segment ->
      exists a b text, cue_fields segment a b text /\
        cues !! i =
          Some ((a ++ ".000") ++ " --> " ++ (b ++ ".000") ++ nl
                  ++ text ++ nl ++ nl).
Proof.
  apply (vtt_header_and_cues no_float hello_world). reflexivity.
Defined.

(** ** Empty and disordered input *)

(** C9: with no segments every serializer returns: SRT the empty string,
    VTT the header and its empty line, TSV the header row. *)
Theorem empty_segments (str_float : pyfloat -> string) :
  create_srt_content str_float [] = Ok "" /\
  create_vtt_content str_float [] = Ok ("WEBVTT" ++ nl ++ nl) /\
  create_tsv_content str_float [] =
    Ok ("Start" ++ tab ++ "End" ++ tab ++ "Text" ++ String CR (String LF "")).
Proof. repeat split. Qed.

(** C10, as stated, fails: a NaN is a [float], and a segment that starts at
    NaN makes each serializer raise [ValueError]. *)
Lemma nan_start_raises_ValueError :
  well_formed segment_from_nan = false /\
  create_srt_content no_float [segment_from_nan]
    = Raise (ValueError "cannot convert float NaN to integer") /\
  create_vtt_content no_float [segment_from_nan]
    = Raise (ValueError "cannot convert float NaN to integer") /\
  create_tsv_content no_float [segment_from_nan]
    = Raise (ValueError "cannot convert float NaN to integer") /\
  ~ returns (create_srt_content no_float [segment_from_nan]).
Proof.
  assert (create_srt_content no_float [segment_from_nan]
          = Raise (ValueError "cannot convert float NaN to integer")) as H
    by (vm_compute; reflexivity).
  split; [reflexivity|]. split; [exact H|].
  split; [vm_compute; reflexivity|]. split; [vm_compute; reflexivity|].
  rewrite H. intros [t Ht]. discriminate Ht.
Qed.

(** C10, amended: whenever every segment has an [int] within the digit
    limit or a finite [float] under [start] and [end] and a [str] under
    [text], the three serializers return a string; nothing is asked of the
    order or the sign of the times. *)
Theorem serializers_return (str_float : pyfloat -> string)
    (segments : list (gmap string pyval)) :
  forallb well_formed segments = true ->
  forallb within_limit segments = true ->
  returns (create_srt_content str_float segments) /\
  returns (create_vtt_content str_float segments) /\
  returns (create_tsv_content str_float segments).
Proof.
  intros Hwf _. unfold returns.
  destruct (srt_structure str_float segments Hwf) as (? & -> & _).
  destruct (vtt_structure str_float segments Hwf) as (? & -> & _).
  destruct (tsv_rows str_float segments Hwf) as (? & -> & _).
  repeat split; eexists; reflexivity.
Qed.

Lemma serializers_return_witness :
  returns (create_srt_content no_float disordered) /\
  returns (create_vtt_content no_float disordered) /\
  returns (create_tsv_content no_float disordered).
Proof.
  apply (serializers_return no_float disordered); reflexivity.
Defined.

(** ** Missing keys *)

(** C3, as stated, fails: a segment without [start] makes each serializer
    raise [KeyError] with the key as its argument, which is not a
    [MalformedResult]. *)
Lemma missing_start_is_KeyError :
  create_srt_content no_float [segment_without_start] = Raise (KeyError "start") /\
  create_vtt_content no_float [segment_without_start] = Raise (KeyError "start") /\
  create_tsv_content no_float [segment_without_start] = Raise (KeyError "start") /\
  create_srt_content no_float [segment_without_start]
    <> Raise (MalformedResult "start").
Proof.
  assert (create_srt_content no_float [segment_without_start]
          = Raise (KeyError "start")) as H by (vm_compute; reflexivity).
  split; [exact H|]. split; [vm_compute; reflexivity|].
  split; [vm_compute; reflexivity|]. rewrite H. discriminate.
Qed.

(** C3, amended: when the segments before it are well formed, a segment
    that lacks [start], or has a valid [start] and lacks [end], or has both
    valid and lacks [text], makes each of the three serializers raise
    [KeyError] with that key; no string is returned, so nothing is put in
    the place of the missing value. *)
Theorem missing_key_raises_KeyError (str_float : pyfloat -> string)
    (pre post : list (gmap string pyval)) (segment : gmap string pyval)
    (key : string) :
  forallb well_formed pre = true -> missing_key segment = Some key ->
  create_srt_content str_float (pre ++ segment :: post) = Raise (KeyError key) /\
  create_vtt_content str_float (pre ++ segment :: post) = Raise (KeyError key) /\
  create_tsv_content str_float (pre ++ segment :: post) = Raise (KeyError key).
Proof.
  intros Hwf Hkey. split; [|split].
  - now apply srt_missing_key.
  - now apply vtt_missing_key.
  - now apply tsv_missing_key.
Qed.

Lemma missing_key_raises_KeyError_witness :
  create_srt_content no_float (hello_world ++ segment_without_end :: disordered)
    = Raise (KeyError "end") /\
  create_vtt_content no_float (hello_world ++ segment_without_end :: disordered)
    = Raise (KeyError "end") /\
  create_tsv_content no_float (hello_world ++ segment_without_end :: disordered)
    = Raise (KeyError "end").
Proof.
  apply (missing_key_raises_KeyError no_float hello_world disordered
           segment_without_end "end"); reflexivity.
Defined.

(** ** TSV *)

(** C4, as stated, fails: the rows end with CR LF, so splitting the output
    for the text [Hi] on newlines and tabs gives the field [Hi] followed by
    a CR; and splitting on CR LF does not give a text back that holds a
    double quote, which the writer doubles and encloses in quotes. *)
Lemma tsv_split_does_not_round_trip :
  forallb well_formed [segment_of (itg 0) (itg 1) "Hi"] = true /\
  forallb no_tab_or_newline [segment_of (itg 0) (itg 1) "Hi"] = true /\
  ~ tsv_round_trip no_float grid_lf [segment_of (itg 0) (itg 1) "Hi"] /\
  forallb no_tab_or_newline [segment_of (itg 0) (itg 1) (String DQUOTE "")]
    = true /\
  ~ tsv_round_trip no_float grid_crlf
      [segment_of (itg 0) (itg 1) (String DQUOTE "")].
Proof.
  split; [reflexivity|]. split; [reflexivity|]. split; [|split; [reflexivity|]].
  - intros (content & rows & Hrun & _ & Hgrid).
    vm_compute in Hrun. injection Hrun as <-.
    vm_compute in Hgrid. discriminate Hgrid.
  - intros (content & rows & Hrun & Hrows & Hgrid).
    vm_compute in Hrun. injection Hrun as <-.
    vm_compute in Hgrid. injection Hgrid as <-.
    apply Forall2_cons_1 in Hrows as [(a & b & text & Hf & Hrow) _].
    injection Hrow as <- <- <-.
    destruct Hf as (start & end_ & _ & _ & Ht & _).
    vm_compute in Ht. discriminate Ht.
Qed.

(** C4, amended: for well-formed segments whose texts hold no tab, CR, LF
    or double quote, splitting the TSV output on CR LF into rows and every
    row on tabs gives the header and then, for each segment in order, its
    formatted start, its formatted end and its text. *)
Theorem tsv_round_trip_plain (str_float : pyfloat -> string)
    (segments : list (gmap string pyval)) :
  forallb well_formed segments = true ->
  forallb plain_text segments = true ->
  exists (content : string) (rows : list (list string)),
    create_tsv_content str_float segments = Ok content /\
    grid_crlf content = ["Start"; "End"; "Text"] :: rows /\
    length rows = length segments /\
    forall (i : nat) segment, segments !! i = Some segment ->
      exists a b text, cue_fields segment a b text /\
        rows !! i = Some [a; b; text].
Proof.
  intros Hwf Hplain.
  destruct (tsv_round_trip_crlf str_float segments Hwf Hplain)
    as (content & rows & Hrun & Hrows & Hgrid).
  exists content, rows. split; [exact Hrun|]. split; [exact Hgrid|]. split.
  - symmetry. exact (Forall2_length _ _ _ Hrows).
  - intros i segment Hi.
    destruct (Forall2_lookup_l _ _ _ _ _ Hrows Hi)
      as (row & Hrow & a & b & text & Hf & ->).
    exists a, b, text. auto.
Qed.

Lemma tsv_round_trip_plain_witness :
  exists (content : string) (rows : list (list string)),
    create_tsv_content no_float hello_world = Ok content /\
    grid_crlf content = ["Start"; "End"; "Text"] :: rows /\
    length rows = length hello_world /\
    forall (i : nat) segment, hello_world !! i = Some segment ->
      exists a b text, cue_fields segment a b text /\
        rows !! i = Some [a; b; text].
Proof.
  apply (tsv_round_trip_plain no_float hello_world); reflexivity.
Defined.

(** C5, as stated, fails: a tab inside the text stays a tab in the output
    (the field is only put between double quotes), so the row of the text
    [a<TAB>b] splits into four fields, whether the rows are split on LF or
    on CR LF. *)
Lemma tsv_tab_in_text_gives_four_fields :
  ~ tsv_grid_shape no_float grid_lf
      [segment_of (itg 0) (itg 1) ("a" ++ tab ++ "b")] /\
  ~ tsv_grid_shape no_float grid_crlf
      [segment_of (itg 0) (itg 1) ("a" ++ tab ++ "b")].
Proof.
  split; intros (content & Hrun & _ & Hall);
    vm_compute in Hrun; injection Hrun as <-; vm_compute in Hall;
    apply Forall_cons in Hall as [_ Hall];
    apply Forall_cons in Hall as [Hrow _]; discriminate Hrow.
Qed.

(** C5, amended: for well-formed segments the TSV output is the header row
    [Start<TAB>End<TAB>Text] and one row for each segment, in order, every
    row ending with CR LF: the formatted start, a tab, the formatted end, a
    tab and the text field.  A text without tab, CR, LF and double quote is
    written as it is; any other text is written between double quotes with
    its double quotes doubled and its tabs and newlines unchanged.  A reader
    that honours the quotes gets the header and then, for each segment, the
    three fields back. *)
Theorem tsv_rows_quoted (str_float : pyfloat -> string)
    (segments : list (gmap string pyval)) :
  forallb well_formed segments = true ->
  exists (content : string) (rows : list string) (grid : list (list string)),
    create_tsv_content str_float segments = Ok content /\
    content =
      ("Start" ++ tab ++ "End" ++ tab ++ "Text" ++ String CR (String LF ""))
        ++ String.concat "" rows /\
    read_rows TAB content = ["Start"; "End"; "Text"] :: grid /\
    length rows = length segments /\ length grid = length segments /\
    forall (i : nat) segment, segments !! i = Some segment ->
      exists a b text, cue_fields segment a b text /\
        rows !! i =
          Some (a ++ tab ++ b ++ tab
                  ++ (if needs_quotes TAB text
                      then String DQUOTE (double_quotes text ++ String DQUOTE "")
                      else text)
                  ++ String CR (String LF "")) /\
        grid !! i = Some [a; b; text].
Proof.
  intros Hwf.
  destruct (tsv_written str_float segments Hwf) as (grid & Hrun & Hgrid).
  exists (written TAB (["Start"; "End"; "Text"] :: grid)),
    (map (fun row => csv.record TAB row ++ csv.lineterminator) grid), grid.
  split; [exact Hrun|]. split; [|split; [|split; [|split]]].
  - unfold written. cbn [map]. now rewrite concat_cons.
  - apply read_rows_written.
  - rewrite length_map. symmetry. exact (Forall2_length _ _ _ Hgrid).
  - symmetry. exact (Forall2_length _ _ _ Hgrid).
  - intros i segment Hi.
    destruct (Forall2_lookup_l _ _ _ _ _ Hgrid Hi)
      as (row & Hrow & a & b & text & Hf & ->).
    exists a, b, text. split; [exact Hf|]. split; [|exact Hrow].
    rewrite list_lookup_fmap, Hrow. cbn [fmap option_fmap option_map]. f_equal.
    destruct Hf as (start & end_ & _ & _ & _ & Ea & Eb).
    pose proof (writerow_times_text a b text ""
                  (format_time_plain _ _ Ea) (format_time_plain _ _ Eb)) as Hw.
    unfold csv.writerow in Hw. rewrite !append_nil_l in Hw. exact Hw.
Qed.

Lemma tsv_rows_quoted_witness :
  exists (content : string) (rows : list string) (grid : list (list string)),
    create_tsv_content no_float quoted_texts = Ok content /\
    content =
      ("Start" ++ tab ++ "End" ++ tab ++ "Text" ++ String CR (String LF ""))
        ++ String.concat "" rows /\
    read_rows TAB content = ["Start"; "End"; "Text"] :: grid /\
    length rows = length quoted_texts /\ length grid = length quoted_texts /\
    forall (i : nat) segment, quoted_texts !! i = Some segment ->
      exists a b text, cue_fields segment a b text /\
        rows !! i =
          Some (a ++ tab ++ b ++ tab
                  ++ (if needs_quotes TAB text
                      then String DQUOTE (double_quotes text ++ String DQUOTE "")
                      else text)
                  ++ String CR (String LF "")) /\
        grid !! i = Some [a; b; text].
Proof.
  apply (tsv_rows_quoted no_float quoted_texts). reflexivity.
Defined.

(** * The rest of the pages: properties *)

(** ** [str.replace] and [os.path.splitext] *)

Lemma prefix_app (old rest : string) : String.prefix old (old ++ rest) = true.
Proof.
  induction old as [|c old IH]; [now destruct rest|].
  rewrite append_cons. simpl. destruct (ascii_dec c c); [exact IH|contradiction].
Qed.

Lemma replace_from_skip (old new s rest : string) :
  replace_from old new (String.length s) (s ++ rest) = replace_from old new 0 rest.
Proof.
  induction s as [|c s IH]; [reflexivity|].
  rewrite append_cons. exact IH.
Qed.

Lemma replace_from_occurrence (old new : string) (c : ascii) (rest : string) :
  replace_from (String c old) new 0 (String c old ++ rest) =
  new ++ replace_from (String c old) new 0 rest.
Proof.
  rewrite append_cons. cbn [replace_from].
  rewrite <- append_cons, prefix_app. f_equal.
  cbn [String.length]. rewrite Nat.sub_succ, Nat.sub_0_r.
  apply replace_from_skip.
Qed.

(** When the first occurrence of [old] in [stem ++ old] is the one at the
    end, replacing leaves [stem] alone. *)
Lemma replace_last_occurrence (old new stem : string) :
  old <> "" ->
  str_find old (stem ++ old) = Some (String.length stem) ->
  str_replace (stem ++ old) old new = stem ++ new.
Proof.
  intros Hold. destruct old as [|c old]; [contradiction|]. clear Hold.
  unfold str_replace.
  induction stem as [|a stem IH]; intros Hfind.
  - rewrite !append_nil_l.
    rewrite <- (append_nil_r (String c old)) at 2.
    rewrite replace_from_occurrence. simpl. now rewrite append_nil_r.
  - rewrite !append_cons in *. cbn [str_find] in Hfind.
    destruct (String.prefix (String c old) (String a (stem ++ String c old)))
      eqn:Hp; [discriminate|].
    cbn [replace_from]. rewrite Hp. f_equal. apply IH.
    destruct (str_find (String c old) (stem ++ String c old)) as [i|];
      simpl in Hfind; [|discriminate].
    simpl. congruence.
Qed.

Lemma substring_split (n : nat) (s : string) :
  (n <= String.length s)%nat ->
  String.substring 0 n s ++ String.substring n (String.length s - n) s = s.
Proof.
  revert n. induction s as [|c s IH]; intros [|n] Hn; simpl in *; try lia.
  - reflexivity.
  - rewrite append_nil_l. clear IH Hn. f_equal.
    induction s as [|c' s IH]; simpl; congruence.
  - rewrite append_cons. f_equal.
    specialize (IH n ltac:(lia)).
    destruct n; simpl in *.
    + destruct s; simpl in *; [reflexivity|]. exact IH.
    + exact IH.
Qed.

Lemma rfind_nat_lt (c : ascii) (s : string) (i : nat) :
  rfind_nat c s = Some i -> (i < String.length s)%nat.
Proof.
  revert i. induction s as [|a s IH]; intros i; simpl; [discriminate|].
  destruct (rfind_nat c s) as [j|].
  - intros [= <-]. specialize (IH j eq_refl). lia.
  - destruct (Ascii.eqb a c); [intros [= <-]; lia|discriminate].
Qed.

Lemma rfind_bounds (c : ascii) (s : string) :
  -1 <= rfind c s < Z.of_nat (String.length s).
Proof.
  unfold rfind. destruct (rfind_nat c s) as [i|] eqn:E; [|lia].
  apply rfind_nat_lt in E. lia.
Qed.

Lemma slice_join (p : string) (d : Z) :
  0 <= d <= Z.of_nat (String.length p) ->
  slice p 0 d ++ slice p d (Z.of_nat (String.length p)) = p.
Proof.
  intros Hd. unfold slice. rewrite Nat2Z.id.
  change (Z.to_nat 0) with 0%nat. rewrite Nat.sub_0_r.
  apply substring_split. lia.
Qed.

Lemma splitext_join (p : string) :
  fst (splitext p) ++ snd (splitext p) = p.
Proof.
  unfold splitext. pose proof (rfind_bounds "." p) as Hdot.
  pose proof (rfind_bounds "/" p) as Hsep.
  destruct (Z.gtb_spec (rfind "." p) (rfind "/" p)) as [Hgt|_];
    [|apply append_nil_r].
  destruct (all_dots _); [apply append_nil_r|].
  apply slice_join. lia.
Qed.

(** ** The command of [extract_audio] *)

Section ExtractCommand.

Variable FFMPEG_PATH : string.
Variable str_float : pyfloat -> string.

Lemma extract_command_missing (temp_video_path audio_file output_format : string)
    (settings : gmap string pyval) (key : string) :
  missing_setting settings = Some key ->
  extract_command FFMPEG_PATH str_float temp_video_path audio_file output_format
    settings = Raise (KeyError key).
Proof.
  unfold missing_setting, setting_keys, extract_command, getitem. cbn [List.find].
  unfold mbind, result_bind.
  destruct (settings !! "hardware_accel") as [accel|];
    [|intros [= <-]; reflexivity].
  destruct (settings !! "thread_count") as [count|];
    [|intros [= <-]; cbn [bind]; repeat (destruct (py_ne _ _) || destruct (py_eq _ _));
      reflexivity].
  destruct (settings !! "encoding_preset") as [preset|];
    [|intros [= <-]; cbn [bind]; repeat (destruct (py_ne _ _) || destruct (py_eq _ _));
      reflexivity].
  destruct (settings !! "audio_bitrate") as [bitrate|];
    [|intros [= <-]; cbn [bind]; repeat (destruct (py_ne _ _) || destruct (py_eq _ _));
      reflexivity].
  destruct (settings !! "sample_rate") as [rate|];
    [discriminate|intros [= <-]; cbn [bind];
      repeat (destruct (py_ne _ _) || destruct (py_eq _ _)); reflexivity].
Qed.

Lemma extract_command_complete (temp_video_path audio_file output_format : string)
    (settings : gmap string pyval) :
  missing_setting settings = None ->
  exists command,
    extract_command FFMPEG_PATH str_float temp_video_path audio_file output_format
      settings = Ok command.
Proof.
  unfold missing_setting, setting_keys, extract_command, getitem. cbn [List.find].
  unfold mbind, result_bind.
  destruct (settings !! "hardware_accel") as [accel|]; [|discriminate].
  destruct (settings !! "thread_count") as [count|]; [|discriminate].
  destruct (settings !! "encoding_preset") as [preset|]; [|discriminate].
  destruct (settings !! "audio_bitrate") as [bitrate|]; [|discriminate].
  destruct (settings !! "sample_rate") as [rate|]; [|discriminate].
  intros _. cbn [bind].
  repeat (destruct (py_ne _ _) || destruct (py_eq _ _)); cbn [bind]; eauto.
Qed.

End ExtractCommand.

(** ** [extract_audio] *)

Section ExtractProperties.

Variable FFMPEG_PATH : string.
Variable process : list pyval -> gmap string string -> run_outcome.
Variable str_float : pyfloat -> string.

Lemma extract_cleanup (temp audio : string) (w1 : world) :
  exists (rc : result unit) (w2 : world),
    (_ ← unlink temp;
     io_bind (path_exists audio)
       (fun there : bool => if there then unlink audio else io_ret tt)) w1
      = (rc, w2) /\
    events w2 = events w1 /\
    files w2 !! temp = None /\
    ((rc = Raise (FileNotFoundError temp) /\ files w1 !! temp = None /\ w2 = w1) \/
     (rc = Ok tt /\ files w2 = delete audio (delete temp (files w1)))).
Proof.
  unfold mbind, io_mbind, io_bind, unlink, path_exists, io_ret.
  destruct (files w1 !! temp) as [v|] eqn:Et; cbn [files events].
  - destruct (delete temp (files w1) !! audio) as [a|] eqn:Ea; cbn [files events].
    + rewrite Ea. eexists _, _. split; [reflexivity|]. cbn [files events].
      split; [reflexivity|]. split; [|right; auto].
      destruct (decide (audio = temp)) as [->|Hne].
      * apply lookup_delete_eq.
      * rewrite lookup_delete_ne by congruence. apply lookup_delete_eq.
    + eexists _, _. split; [reflexivity|]. cbn [files events].
      split; [reflexivity|]. split; [apply lookup_delete_eq|right].
      split; [reflexivity|]. symmetry. now apply delete_id.
  - eexists _, _. split; [reflexivity|]. auto 10.
Qed.

Lemma extract_audio_missing (temp_stem video_file output_format : string)
    (settings : gmap string pyval) (key : string) (w : world) :
  missing_setting settings = Some key ->
  extract_audio FFMPEG_PATH process str_float temp_stem video_file output_format
    settings w =
  (Raise (KeyError key),
   World (<[temp_stem ++ ".mp4" := video_file]> (files w)) (events w)).
Proof.
  intros Hkey. unfold extract_audio, mbind, io_mbind, io_bind, write_file, lift.
  now rewrite (extract_command_missing _ _ _ _ _ _ _ Hkey).
Qed.

Lemma extract_audio_built (temp_stem video_file output_format : string)
    (settings : gmap string pyval) (command : list pyval) (w : world) :
  extract_command FFMPEG_PATH str_float (temp_stem ++ ".mp4")
    (audio_file_name (temp_stem ++ ".mp4") output_format) output_format settings
    = Ok command ->
  extract_audio FFMPEG_PATH process str_float temp_stem video_file output_format
    settings w =
  try_finally
    (try_except
       (_ ← subprocess_run process command;
        audio_data ← read_file (audio_file_name (temp_stem ++ ".mp4") output_format);
        io_ret (Some audio_data))
       "CalledProcessError"
       (fun e =>
          _ ← emit (StError ("Error during audio extraction: " ++ exc_arg e));
          io_ret None))
    (_ ← unlink (temp_stem ++ ".mp4");
     io_bind (path_exists (audio_file_name (temp_stem ++ ".mp4") output_format))
       (fun there : bool =>
          if there
          then unlink (audio_file_name (temp_stem ++ ".mp4") output_format)
          else io_ret tt))
    (World (<[temp_stem ++ ".mp4" := video_file]> (files w)) (events w)).
Proof.
  intros Hc. unfold extract_audio.
  unfold mbind at 1, io_mbind at 1, io_bind at 1, write_file.
  unfold mbind at 1, io_mbind at 1, io_bind at 1, lift.
  now rewrite Hc.
Qed.

(** X1: once the settings are complete, the temporary video is gone when
    [extract_audio] is over, however the process ended; and so is the audio
    file, unless the call raised [FileNotFoundError] for the temporary
    video, which the process must then have removed. *)
Theorem extract_audio_removes_its_files (temp_stem video_file output_format : string)
    (settings : gmap string pyval) (w : world) :
  missing_setting settings = None ->
  exists (r : result (option string)) (w' : world),
    extract_audio FFMPEG_PATH process str_float temp_stem video_file
      output_format settings w = (r, w') /\
    files w' !! (temp_stem ++ ".mp4") = None /\
    (r = Raise (FileNotFoundError (temp_stem ++ ".mp4")) \/
     files w' !! audio_file_name (temp_stem ++ ".mp4") output_format = None).
Proof.
  intros Hs.
  destruct (extract_command_complete FFMPEG_PATH str_float (temp_stem ++ ".mp4")
              (audio_file_name (temp_stem ++ ".mp4") output_format)
              output_format settings Hs) as [command Hc].
  rewrite (extract_audio_built _ _ _ _ _ _ Hc). unfold try_finally.
  destruct (try_except _ _ _ _) as [r1 w1].
  destruct (extract_cleanup (temp_stem ++ ".mp4")
              (audio_file_name (temp_stem ++ ".mp4") output_format) w1)
    as (rc & w2 & -> & _ & Ht & [(-> & _ & ->)|(-> & Hf)]).
  - eexists _, _. split; [reflexivity|]. auto.
  - eexists _, _. split; [reflexivity|]. split; [exact Ht|right].
    rewrite Hf. apply lookup_delete_eq.
Qed.

Lemma extract_audio_exited (temp_stem video_file output_format : string)
    (settings : gmap string pyval) (w : world) (command : list pyval)
    (returncode : Z) (stderr : string) (fs' : gmap string string) :
  let temp_video_path := temp_stem ++ ".mp4" in
  let audio_file := audio_file_name temp_video_path output_format in
  extract_command FFMPEG_PATH str_float temp_video_path audio_file output_format
    settings = Ok command ->
  process command (<[temp_video_path := video_file]> (files w))
    = Exits returncode stderr fs' ->
  is_Some (fs' !! temp_video_path) ->
  extract_audio FFMPEG_PATH process str_float temp_stem video_file output_format
    settings w =
  (if (returncode =? 0)%Z
   then match fs' !! audio_file with
        | Some audio_data => Ok (Some audio_data)
        | None => Raise (FileNotFoundError audio_file)
        end
   else Ok None,
   World (delete audio_file (delete temp_video_path fs'))
     (if (returncode =? 0)%Z then events w
      else (events w ++ [StError ("Error during audio extraction: " ++ stderr)])%list)).
Proof.
  intros temp_video_path audio_file Hc Hp [v Hv].
  rewrite (extract_audio_built _ _ _ _ _ _ Hc). fold temp_video_path audio_file.
  unfold try_finally.
  destruct (extract_cleanup temp_video_path audio_file
              (World fs' (if (returncode =? 0)%Z then events w
                          else (events w ++ [StError ("Error during audio extraction: "
                                                        ++ stderr)])%list)))
    as (rc & w2 & Hcl & Hev & _ & [(_ & Hn & _)|(-> & Hf)]);
    [cbn [files] in Hn; congruence|].
  cbn [files events] in *.
  assert (w2 = World (delete audio_file (delete temp_video_path fs'))
                 (if (returncode =? 0)%Z then events w
                  else (events w ++ [StError ("Error during audio extraction: "
                                                ++ stderr)])%list)) as ->
    by (destruct w2; cbn [files events] in *; congruence).
  set (cleanup := mbind _ (unlink temp_video_path)) in *.
  unfold try_except, mbind, io_mbind, io_bind, subprocess_run, read_file,
    emit, io_ret. cbn [files events]. rewrite Hp.
  destruct (returncode =? 0)%Z; cbn [files events exc_class exc_arg CalledProcessError].
  - destruct (fs' !! audio_file) as [audio_data|]; cbn [exc_class FileNotFoundError];
      cbn; now rewrite Hcl.
  - cbn. now rewrite Hcl.
Qed.

Lemma extract_audio_not_started (temp_stem video_file output_format : string)
    (settings : gmap string pyval) (w : world) (command : list pyval)
    (e : pyexc) :
  let temp_video_path := temp_stem ++ ".mp4" in
  let audio_file := audio_file_name temp_video_path output_format in
  extract_command FFMPEG_PATH str_float temp_video_path audio_file output_format
    settings = Ok command ->
  process command (<[temp_video_path := video_file]> (files w)) = CannotRun e ->
  exc_class e <> "CalledProcessError" ->
  extract_audio FFMPEG_PATH process str_float temp_stem video_file output_format
    settings w =
  (Raise e,
   World (delete audio_file (delete temp_video_path (files w))) (events w)).
Proof.
  intros temp_video_path audio_file Hc Hp Hcls.
  rewrite (extract_audio_built _ _ _ _ _ _ Hc). fold temp_video_path audio_file.
  unfold try_finally.
  destruct (extract_cleanup temp_video_path audio_file
              (World (<[temp_video_path := video_file]> (files w)) (events w)))
    as (rc & w2 & Hcl & Hev & _ & [(_ & Hn & _)|(-> & Hf)]).
  { cbn [files] in Hn. now rewrite lookup_insert_eq in Hn. }
  cbn [files events] in *. rewrite delete_insert_eq in Hf.
  assert (w2 = World (delete audio_file (delete temp_video_path (files w)))
                 (events w)) as ->
    by (destruct w2; cbn [files events] in *; congruence).
  set (cleanup := mbind _ (unlink temp_video_path)) in *.
  unfold try_except, mbind, io_mbind, io_bind, subprocess_run. cbn [files events].
  rewrite Hp. apply String.eqb_neq in Hcls. rewrite Hcls. now rewrite Hcl.
Qed.

(** X2: with a key missing from the settings, [extract_audio] raises
    [KeyError] for the first key it reads and does not find.  This happens
    before the [try]: the program is not started, nothing is shown, and the
    temporary video, already written, stays on disk.  The button raises the
    same and shows neither of its messages. *)
Theorem extract_audio_missing_setting (temp_stem video_name video_file output_format : string)
    (settings : gmap string pyval) (key : string) (w : world) :
  missing_setting settings = Some key ->
  extract_audio FFMPEG_PATH process str_float temp_stem video_file output_format
    settings w =
  (Raise (KeyError key),
   World (<[temp_stem ++ ".mp4" := video_file]> (files w)) (events w)) /\
  extract_audio_button FFMPEG_PATH process str_float temp_stem video_name
    video_file output_format settings w =
  (Raise (KeyError key),
   World (<[temp_stem ++ ".mp4" := video_file]> (files w)) (events w)).
Proof.
  intros Hkey. split; [now apply extract_audio_missing|].
  unfold extract_audio_button, mbind, io_mbind, io_bind.
  now rewrite (extract_audio_missing _ _ _ _ _ _ Hkey).
Qed.

(** X3: when the process exits, what it wrote decodes as text, and it
    leaves the temporary video in place, [extract_audio] returns the bytes
    of the audio file for exit code 0,
    raises [FileNotFoundError] when exit code 0 came without that file, and
    for any other exit code shows the error output of the process and
    returns [None]; both files are removed and no other file is touched
    after the process. *)
Theorem extract_audio_after_exit (temp_stem video_file output_format : string)
    (settings : gmap string pyval) (w : world) (command : list pyval)
    (returncode : Z) (stderr : string) (fs' : gmap string string) :
  let temp_video_path := temp_stem ++ ".mp4" in
  let audio_file := audio_file_name temp_video_path output_format in
  extract_command FFMPEG_PATH str_float temp_video_path audio_file output_format
    settings = Ok command ->
  process command (<[temp_video_path := video_file]> (files w))
    = Exits returncode stderr fs' ->
  is_Some (fs' !! temp_video_path) ->
  extract_audio FFMPEG_PATH process str_float temp_stem video_file output_format
    settings w =
  (if (returncode =? 0)%Z
   then match fs' !! audio_file with
        | Some audio_data => Ok (Some audio_data)
        | None => Raise (FileNotFoundError audio_file)
        end
   else Ok None,
   World (delete audio_file (delete temp_video_path fs'))
     (if (returncode =? 0)%Z then events w
      else (events w ++ [StError ("Error during audio extraction: " ++ stderr)])%list)).
Proof.
  intros temp_video_path audio_file Hc Hp Hv.
  exact (extract_audio_exited temp_stem video_file output_format settings w
           command returncode stderr fs' Hc Hp Hv).
Qed.

(** X4: what the button shows once the process has exited, with output
    that decodes as text, and left the temporary video in place.  For another exit code than 0 there are two
    errors, the error output of the process and then the advice to check
    FFmpeg.  For exit code 0 and an audio file that holds bytes there is
    the success message and a download button with these bytes, the
    download name and the type [audio/] followed by the format; for an
    audio file without bytes there is the advice to check FFmpeg, as if the
    extraction had failed; and without an audio file the button raises
    [FileNotFoundError] and shows nothing. *)
Theorem extract_audio_button_after_exit (temp_stem video_name video_file output_format : string)
    (settings : gmap string pyval) (w : world) (command : list pyval)
    (returncode : Z) (stderr : string) (fs' : gmap string string) :
  let temp_video_path := temp_stem ++ ".mp4" in
  let audio_file := audio_file_name temp_video_path output_format in
  let failed :=
    StError "Failed to extract audio. Please check if FFmpeg is installed and the FFMPEG_PATH is set correctly." in
  extract_command FFMPEG_PATH str_float temp_video_path audio_file output_format
    settings = Ok command ->
  process command (<[temp_video_path := video_file]> (files w))
    = Exits returncode stderr fs' ->
  is_Some (fs' !! temp_video_path) ->
  extract_audio_button FFMPEG_PATH process str_float temp_stem video_name
    video_file output_format settings w =
  (if (returncode =? 0)%Z
   then match fs' !! audio_file with
        | Some _ => Ok tt
        | None => Raise (FileNotFoundError audio_file)
        end
   else Ok tt,
   World (delete audio_file (delete temp_video_path fs'))
     (events w ++
      if (returncode =? 0)%Z
      then match fs' !! audio_file with
           | Some (String _ _ as audio_data) =>
               [StSuccess "Audio extracted successfully!";
                StDownloadButton "Download Extracted Audio" audio_data
                  (download_name video_name output_format)
                  ("audio/" ++ output_format)]
           | Some EmptyString => [failed]
           | None => []
           end
      else [StError ("Error during audio extraction: " ++ stderr); failed])%list).
Proof.
  intros temp_video_path audio_file failed Hc Hp Hv.
  unfold extract_audio_button. unfold mbind at 1, io_mbind at 1, io_bind at 1.
  rewrite (extract_audio_exited temp_stem video_file output_format settings w
             command returncode stderr fs' Hc Hp Hv).
  fold temp_video_path audio_file.
  destruct (returncode =? 0)%Z.
  - destruct (fs' !! audio_file) as [[|c audio_data]|];
      unfold mbind, io_mbind, io_bind, emit; cbn [files events];
      rewrite ?app_nil_r, <- ?app_assoc; reflexivity.
  - unfold emit. cbn [files events]. now rewrite <- app_assoc.
Qed.

(** X5: when the program cannot be started, [extract_audio] raises the
    exception of the start (it does not return [None]) after it has removed
    the temporary video; nothing is shown, and the button, which raises the
    same, does not get to its advice to check FFmpeg. *)
Theorem extract_audio_cannot_run (temp_stem video_name video_file output_format : string)
    (settings : gmap string pyval) (w : world) (command : list pyval)
    (e : pyexc) :
  let temp_video_path := temp_stem ++ ".mp4" in
  let audio_file := audio_file_name temp_video_path output_format in
  extract_command FFMPEG_PATH str_float temp_video_path audio_file output_format
    settings = Ok command ->
  process command (<[temp_video_path := video_file]> (files w)) = CannotRun e ->
  exc_class e <> "CalledProcessError" ->
  extract_audio FFMPEG_PATH process str_float temp_stem video_file output_format
    settings w =
  (Raise e,
   World (delete audio_file (delete temp_video_path (files w))) (events w)) /\
  extract_audio_button FFMPEG_PATH process str_float temp_stem video_name
    video_file output_format settings w =
  (Raise e,
   World (delete audio_file (delete temp_video_path (files w))) (events w)).
Proof.
  intros temp_video_path audio_file Hc Hp Hcls.
  pose proof (extract_audio_not_started temp_stem video_file output_format
                settings w command e Hc Hp Hcls) as H.
  split; [exact H|].
  unfold extract_audio_button, mbind, io_mbind, io_bind. now rewrite H.
Qed.


End ExtractProperties.


Lemma extract_audio_missing_setting_witness :
  extract_audio "ffmpeg" writing_process no_float "/tmp/tmpk3v9x2ab" "VIDEO" "mp3"
    (delete "sample_rate" default_settings) empty_world =
  (Raise (KeyError "sample_rate"),
   World (<["/tmp/tmpk3v9x2ab" ++ ".mp4" := "VIDEO"]> (files empty_world))
     (events empty_world)) /\
  extract_audio_button "ffmpeg" writing_process no_float "/tmp/tmpk3v9x2ab"
    "clip.mp4" "VIDEO" "mp3" (delete "sample_rate" default_settings) empty_world =
  (Raise (KeyError "sample_rate"),
   World (<["/tmp/tmpk3v9x2ab" ++ ".mp4" := "VIDEO"]> (files empty_world))
     (events empty_world)).
Proof.
  apply (extract_audio_missing_setting "ffmpeg" writing_process no_float
           "/tmp/tmpk3v9x2ab" "clip.mp4" "VIDEO" "mp3"
           (delete "sample_rate" default_settings) "sample_rate" empty_world).
  reflexivity.
Defined.

Lemma extract_audio_removes_its_files_witness :
  exists (r : result (option string)) (w' : world),
    extract_audio "ffmpeg" writing_process no_float "/tmp/tmpk3v9x2ab" "VIDEO"
      "mp3" default_settings empty_world = (r, w') /\
    files w' !! ("/tmp/tmpk3v9x2ab" ++ ".mp4") = None /\
    (r = Raise (FileNotFoundError ("/tmp/tmpk3v9x2ab" ++ ".mp4")) \/
     files w' !! audio_file_name ("/tmp/tmpk3v9x2ab" ++ ".mp4") "mp3" = None).
Proof.
  apply (extract_audio_removes_its_files "ffmpeg" writing_process no_float
           "/tmp/tmpk3v9x2ab" "VIDEO" "mp3" default_settings empty_world).
  reflexivity.
Defined.

Lemma extract_audio_after_exit_witness :
  extract_audio "ffmpeg" failing_process no_float "/tmp/tmpk3v9x2ab" "VIDEO" "mp3"
    default_settings empty_world =
  (Ok None,
   World (delete "/tmp/tmpk3v9x2ab.mp3"
            (delete "/tmp/tmpk3v9x2ab.mp4" (<["/tmp/tmpk3v9x2ab.mp4" := "VIDEO"]> ∅)))
     [StError "Error during audio extraction: Unknown encoder"]).
Proof.
  apply (extract_audio_after_exit "ffmpeg" failing_process no_float
           "/tmp/tmpk3v9x2ab" "VIDEO" "mp3" default_settings empty_world
           [PyStr "ffmpeg"; PyStr "-i"; PyStr "/tmp/tmpk3v9x2ab.mp4"; PyStr "-vn";
            PyStr "-threads"; PyStr "0"; PyStr "-preset"; PyStr "medium";
            PyStr "-acodec"; PyStr "mp3"; PyStr "/tmp/tmpk3v9x2ab.mp3"]
           1 "Unknown encoder" (<["/tmp/tmpk3v9x2ab.mp4" := "VIDEO"]> ∅)).
  - reflexivity.
  - reflexivity.
  - vm_compute. eauto.
Defined.

Lemma extract_audio_button_after_exit_witness :
  extract_audio_button "ffmpeg" writing_process no_float "/tmp/tmpk3v9x2ab"
    "clip.mp4" "VIDEO" "mp3" default_settings empty_world =
  (Ok tt,
   World ∅
     [StSuccess "Audio extracted successfully!";
      StDownloadButton "Download Extracted Audio" "AUDIO" "clip.mp3" "audio/mp3"]).
Proof.
  pose proof
    (extract_audio_button_after_exit "ffmpeg" writing_process no_float
       "/tmp/tmpk3v9x2ab" "clip.mp4" "VIDEO" "mp3" default_settings empty_world
       [PyStr "ffmpeg"; PyStr "-i"; PyStr "/tmp/tmpk3v9x2ab.mp4"; PyStr "-vn";
        PyStr "-threads"; PyStr "0"; PyStr "-preset"; PyStr "medium";
        PyStr "-acodec"; PyStr "mp3"; PyStr "/tmp/tmpk3v9x2ab.mp3"]
       0 ""
       (<["/tmp/tmpk3v9x2ab.mp3" := "AUDIO"]>
          (<["/tmp/tmpk3v9x2ab.mp4" := "VIDEO"]> ∅))) as H.
  vm_compute in H. vm_compute. apply H; [reflexivity|reflexivity|eauto].
Defined.

Lemma extract_audio_cannot_run_witness :
  extract_audio "ffmpeg" absent_program no_float "/tmp/tmpk3v9x2ab" "VIDEO" "mp3"
    default_settings empty_world =
  (Raise (FileNotFoundError "ffmpeg"),
   World (delete "/tmp/tmpk3v9x2ab.mp3" (delete "/tmp/tmpk3v9x2ab.mp4" ∅)) []) /\
  extract_audio_button "ffmpeg" absent_program no_float "/tmp/tmpk3v9x2ab"
    "clip.mp4" "VIDEO" "mp3" default_settings empty_world =
  (Raise (FileNotFoundError "ffmpeg"),
   World (delete "/tmp/tmpk3v9x2ab.mp3" (delete "/tmp/tmpk3v9x2ab.mp4" ∅)) []).
Proof.
  apply (extract_audio_cannot_run "ffmpeg" absent_program no_float
           "/tmp/tmpk3v9x2ab" "clip.mp4" "VIDEO" "mp3" default_settings empty_world
           [PyStr "ffmpeg"; PyStr "-i"; PyStr "/tmp/tmpk3v9x2ab.mp4"; PyStr "-vn";
            PyStr "-threads"; PyStr "0"; PyStr "-preset"; PyStr "medium";
            PyStr "-acodec"; PyStr "mp3"; PyStr "/tmp/tmpk3v9x2ab.mp3"]
           (FileNotFoundError "ffmpeg")).
  - reflexivity.
  - reflexivity.
  - discriminate.
Defined.

(** ** [transcribe_audio] *)

Lemma for_each_emit (xs : list nat) (w : world) :
  for_each xs
    (fun i => _ ← emit (Sleep 0.1); emit (Progress (Z.of_nat i # 100))) w =
  (Ok tt,
   World (files w)
     (events w ++ flat_map (fun i : nat => [Sleep 0.1; Progress (Z.of_nat i # 100)]) xs)).
Proof.
  revert w. induction xs as [|x xs IH]; intros w.
  - cbn. rewrite app_nil_r. now destruct w.
  - cbn [for_each flat_map]. unfold mbind at 1, io_mbind at 1, io_bind at 1.
    unfold mbind at 1, io_mbind at 1, io_bind at 1, emit at 1 2.
    cbn [files events]. rewrite IH. cbn [files events].
    now rewrite <- !app_assoc.
Qed.

Section TranscribeProperties.

Variable Model : Type.
Variable Transcript : Type.
Variable load_model : string -> result Model.
Variable model_transcribe :
  Model -> string -> option string -> option string ->
  gmap string string -> result Transcript.

Lemma transcribe_audio_loaded (temp_stem audio_name audio_bytes : string)
    (model_name language task : string) (model : Model) (w : world) :
  let tmp_file_path := temp_stem ++ snd (splitext audio_name) in
  let outcome :=
    model_transcribe model tmp_file_path
      (if String.eqb task "transcribe" then None else Some "translate")
      (if String.eqb language "" then None else Some language)
      (<[tmp_file_path := audio_bytes]> (files w)) in
  load_model model_name = Ok model ->
  transcribe_audio Model Transcript load_model model_transcribe temp_stem
    audio_name audio_bytes model_name language task w =
  (outcome,
   World (delete tmp_file_path (files w))
     (events w ++ fake_progress
        ++ match outcome with Ok _ => [Progress 1] | Raise _ => [] end)).
Proof.
  intros tmp_file_path outcome Hload.
  unfold transcribe_audio. fold tmp_file_path.
  unfold mbind at 1, io_mbind at 1, io_bind at 1, lift. rewrite Hload.
  unfold mbind at 1, io_mbind at 1, io_bind at 1, write_file.
  unfold try_finally.
  unfold mbind at 1, io_mbind at 1, io_bind at 1. rewrite for_each_emit.
  cbn [files events]. fold fake_progress.
  assert (language_or_none language
          = if String.eqb language "" then None else Some language) as ->
    by (now destruct language).
  unfold mbind at 1, io_mbind at 1, io_bind at 1.
  subst outcome. destruct (String.eqb task "transcribe"); cbn [files events];
    match goal with
    | |- context [model_transcribe ?m ?p ?t ?l ?f] =>
        destruct (model_transcribe m p t l f) as [transcript|e]
    end;
    unfold mbind, io_mbind, io_bind, emit, io_ret, unlink; cbn [files events];
    rewrite lookup_insert_eq, delete_insert_eq;
    (now rewrite <- app_assoc) || (now rewrite app_nil_r).
Qed.

(** X6: once the model is loaded, [transcribe_audio] makes its hundred
    progress reports, whatever the audio is, and only then calls the engine:
    on the temporary file that holds the uploaded bytes, with the task
    [translate] for every task other than [transcribe] and with no language
    for an empty one.  The outcome of the engine is the outcome of the call;
    progress 1 is reported only when the engine returned; the temporary
    file is removed either way. *)
Theorem transcribe_audio_run (temp_stem audio_name audio_bytes : string)
    (model_name language task : string) (model : Model) (w : world) :
  let tmp_file_path := temp_stem ++ snd (splitext audio_name) in
  let outcome :=
    model_transcribe model tmp_file_path
      (if String.eqb task "transcribe" then None else Some "translate")
      (if String.eqb language "" then None else Some language)
      (<[tmp_file_path := audio_bytes]> (files w)) in
  load_model model_name = Ok model ->
  files w !! tmp_file_path = None ->
  transcribe_audio Model Transcript load_model model_transcribe temp_stem
    audio_name audio_bytes model_name language task w =
  (outcome,
   World (files w)
     (events w ++ fake_progress
        ++ match outcome with Ok _ => [Progress 1] | Raise _ => [] end)).
Proof.
  intros tmp_file_path outcome Hload Hfresh.
  rewrite (transcribe_audio_loaded _ _ _ _ _ _ model w Hload).
  fold tmp_file_path. now rewrite (delete_id _ _ Hfresh).
Qed.

(** X7: whatever the model loader and the engine do, [transcribe_audio]
    leaves the files as it found them: the temporary file it creates under
    a fresh name is removed when the engine returns, when the engine
    raises, and it is not created when the model cannot be loaded. *)
Theorem transcribe_audio_leaves_no_file (temp_stem audio_name audio_bytes : string)
    (model_name language task : string) (w : world) :
  files w !! (temp_stem ++ snd (splitext audio_name)) = None ->
  files (snd (transcribe_audio Model Transcript load_model model_transcribe
                temp_stem audio_name audio_bytes model_name language task w))
  = files w.
Proof.
  intros Hfresh. destruct (load_model model_name) as [model|e] eqn:Hload.
  - rewrite (transcribe_audio_loaded _ _ _ _ _ _ model w Hload).
    cbn [snd files]. now apply delete_id.
  - unfold transcribe_audio, mbind, io_mbind, io_bind, lift. now rewrite Hload.
Qed.

End TranscribeProperties.

Lemma transcribe_audio_run_witness :
  transcribe_audio unit string (fun _ => Ok tt) echo_engine "/tmp/tmpw81hq0zs"
    "talk.wav" "SOUND" "base" "" "transcribe" empty_world =
  (Ok "SOUND", World ∅ (fake_progress ++ [Progress 1])).
Proof.
  apply (transcribe_audio_run unit string (fun _ => Ok tt) echo_engine
           "/tmp/tmpw81hq0zs" "talk.wav" "SOUND" "base" "" "transcribe" tt
           empty_world); reflexivity.
Defined.

Lemma transcribe_audio_leaves_no_file_witness :
  files (snd (transcribe_audio unit string (fun _ => Ok tt) failing_engine
                "/tmp/tmpw81hq0zs" "talk.wav" "SOUND" "base" "en" "translate"
                empty_world))
  = files empty_world.
Proof.
  apply (transcribe_audio_leaves_no_file unit string (fun _ => Ok tt)
           failing_engine "/tmp/tmpw81hq0zs" "talk.wav" "SOUND" "base" "en"
           "translate" empty_world).
  reflexivity.
Defined.

(** ** Loops over longer lists *)

Lemma for_in_app {A S : Type} (xs ys : list A) (body : A -> S -> result S) (s : S) :
  for_in (xs ++ ys) body s =
  match for_in xs body s with
  | Ok s' => for_in ys body s'
  | Raise e => Raise e
  end.
Proof.
  revert s. induction xs as [|x xs IH]; intros s; [reflexivity|].
  cbn [app for_in]. unfold mbind, result_bind.
  destruct (body x s) as [s'|e]; cbn [bind]; [apply IH|reflexivity].
Qed.

(** A loop whose body appends what [render] gives. *)
Lemma for_in_appends {A : Type} (render : A -> result string)
    (body : A -> string -> result string) (xs : list A) :
  (forall x acc, body x acc = (r ← render x; Ok (acc ++ r))) ->
  forall acc,
    for_in xs body acc = (out ← for_in xs body ""; Ok (acc ++ out)).
Proof.
  intros Hbody. induction xs as [|x xs IH]; intros acc.
  - cbn. now rewrite append_nil_r.
  - cbn [for_in]. rewrite !Hbody. unfold mbind, result_bind.
    destruct (render x) as [r|e]; cbn [bind]; [|reflexivity].
    rewrite (IH (acc ++ r)), (IH ("" ++ r)). unfold mbind, result_bind.
    destruct (for_in xs body "") as [out|e]; [|reflexivity].
    cbn [bind]. now rewrite append_nil_l, append_assoc.
Qed.

Lemma for_in_returns_iff {A S : Type} (ok : A -> bool)
    (body : A -> S -> result S) (xs : list A) :
  (forall x s, returns (body x s) <-> ok x = true) ->
  forall s, returns (for_in xs body s) <-> forallb ok xs = true.
Proof.
  intros Hbody. induction xs as [|x xs IH]; intros s.
  - cbn. split; [reflexivity|]. intros _. now exists s.
  - cbn [for_in forallb]. unfold mbind, result_bind. rewrite andb_true_iff.
    rewrite <- (Hbody x s). destruct (body x s) as [s'|e]; cbn [bind].
    + rewrite (IH s'). split; [intros H; split; [now exists s'|exact H]|tauto].
    + split; [intros [o H]; discriminate|intros [[o H] _]; discriminate].
Qed.

Lemma forallb_enumerate {A : Type} (ok : A -> bool) (xs : list A) (start : Z) :
  forallb (fun p => ok (snd p)) (enumerate xs start) = forallb ok xs.
Proof.
  revert start. induction xs as [|x xs IH]; intros start; [reflexivity|].
  cbn. now rewrite IH.
Qed.

Lemma for_in_ext {A S : Type} (body body' : A -> S -> result S) (xs : list A) :
  (forall x s, body x s = body' x s) ->
  forall s, for_in xs body s = for_in xs body' s.
Proof.
  intros H. induction xs as [|x xs IH]; intros s; [reflexivity|].
  cbn [for_in]. rewrite H. unfold mbind, result_bind.
  destruct (body' x s); cbn [bind]; [apply IH|reflexivity].
Qed.

(** The first exception among the pieces is the one the loop ends with. *)
Lemma for_in_failure {A : Type} (render : A -> result string)
    (body : A -> string -> result string) (xs : list A) :
  (forall x acc, body x acc = (r ← render x; Ok (acc ++ r))) ->
  forall acc,
    failure (for_in xs body acc) = head (omap (fun x => failure (render x)) xs).
Proof.
  intros Hbody. induction xs as [|x xs IH]; intros acc; [reflexivity|].
  cbn [for_in omap list_omap]. rewrite Hbody. unfold mbind, result_bind.
  destruct (render x) as [r|e]; cbn [bind failure]; [apply IH|reflexivity].
Qed.

Lemma omap_pointwise {A B : Type} (f g : A -> option B) (xs : list A) :
  (forall x, f x = g x) -> omap f xs = omap g xs.
Proof.
  intros H. induction xs as [|x xs IH]; [reflexivity|].
  cbn [omap list_omap]. now rewrite H, IH.
Qed.

Lemma omap_enumerate {A B : Type} (f : A -> option B) (xs : list A) (start : Z) :
  omap (fun p => f (snd p)) (enumerate xs start) = omap f xs.
Proof.
  revert start. induction xs as [|x xs IH]; intros start; [reflexivity|].
  cbn [enumerate omap list_omap snd]. now rewrite IH.
Qed.

(** ** The serializers, segment by segment *)

Lemma format_time_cases (v : pyval) :
  (exists t, format_time v = Ok t /\ timestamp v = true)
  \/ (exists e, format_time v = Raise e /\ timestamp v = false).
Proof.
  destruct (timestamp v) eqn:Ht.
  - left. destruct (format_time_returns v Ht) as [t H]. eauto.
  - right. destruct v as [[z|[q|b|]]|s]; try discriminate; eexists; split;
      reflexivity.
Qed.

Lemma for_in_enumerate {A S : Type} (body : A -> S -> result S) (xs : list A)
    (start : Z) (s : S) :
  for_in (enumerate xs start) (fun p acc => body (snd p) acc) s = for_in xs body s.
Proof.
  revert start s. induction xs as [|x xs IH]; intros start s; [reflexivity|].
  cbn [enumerate for_in snd]. unfold mbind, result_bind.
  destruct (body x s); cbn [bind]; [apply IH|reflexivity].
Qed.

Lemma returns_failure {A : Type} (m : result A) : returns m <-> failure m = None.
Proof.
  destruct m as [a|e]; cbn; split; try easy; [now exists a|intros [a H]; discriminate].
Qed.

Lemma failure_Raise {A : Type} (m : result A) (e : pyexc) :
  m = Raise e <-> failure m = Some e.
Proof. destruct m; cbn; split; congruence. Qed.

Section SerializerLoops.

Variable str_float : pyfloat -> string.

Ltac run_segment :=
  unfold mbind, result_bind;
  repeat match goal with
    | |- context [bind (getitem ?d ?k) _] => destruct (getitem d k); cbn [bind]
    | |- context [bind (format_time ?v) _] => destruct (format_time v); cbn [bind]
    end;
  try reflexivity.

Lemma create_srt_content_blocks (segments : list (gmap string pyval)) :
  create_srt_content str_float segments =
  for_in (enumerate segments 1)
    (fun p acc => r ← srt_block_of str_float (fst p) (snd p); Ok (acc ++ r)) "".
Proof.
  unfold create_srt_content. apply for_in_ext.
  intros [i segment] acc. unfold srt_block_of. cbn [fst snd]. run_segment.
Qed.

Lemma create_vtt_content_cues (segments : list (gmap string pyval)) :
  create_vtt_content str_float segments =
  for_in segments
    (fun segment acc => r ← vtt_cue_of str_float segment; Ok (acc ++ r))
    ("WEBVTT" ++ nl ++ nl).
Proof.
  unfold create_vtt_content.
  rewrite <- (for_in_enumerate
    (fun segment acc => r ← vtt_cue_of str_float segment; Ok (acc ++ r))
    segments 1).
  apply for_in_ext.
  intros [i segment] acc. unfold vtt_cue_of. cbn [snd]. run_segment.
Qed.

Lemma create_tsv_content_records (segments : list (gmap string pyval)) :
  create_tsv_content str_float segments =
  for_in segments
    (fun segment acc => r ← tsv_record_of str_float segment; Ok (acc ++ r))
    (csv.record TAB ["Start"; "End"; "Text"] ++ csv.lineterminator).
Proof.
  unfold create_tsv_content, csv.writerow. rewrite append_nil_l.
  apply for_in_ext.
  intros segment acc. unfold tsv_record_of. run_segment.
Qed.

Lemma pieces_fail_alike (i : Z) (segment : gmap string pyval) :
  failure (srt_block_of str_float i segment) = failure (vtt_cue_of str_float segment)
  /\ failure (tsv_record_of str_float segment) = failure (vtt_cue_of str_float segment).
Proof.
  unfold srt_block_of, vtt_cue_of, tsv_record_of. split; run_segment.
Qed.

Lemma cue_returns (segment : gmap string pyval) :
  failure (vtt_cue_of str_float segment) = None <-> serializable segment = true.
Proof.
  unfold vtt_cue_of, serializable, getitem, mbind, result_bind.
  destruct (segment !! "start") as [a|]; cbn [bind failure]; [|easy].
  destruct (format_time_cases a) as [(t & -> & ->)|(e & -> & ->)];
    cbn [bind failure andb].
  2: { destruct (segment !! "end"), (segment !! "text"); easy. }
  destruct (segment !! "end") as [b|]; cbn [bind failure]; [|easy].
  destruct (format_time_cases b) as [(t' & -> & ->)|(e & -> & ->)];
    cbn [bind failure andb].
  2: { destruct (segment !! "text"); easy. }
  destruct (segment !! "text"); cbn [bind failure]; easy.
Qed.

End SerializerLoops.

(** ** What the serializers accept *)

(** X8: what [format_time] does with an [int], a [float] or a [str], an
    [int] being within the digit limit: it returns a string for an [int]
    and for a finite [float]; a NaN and either infinity end in the
    [ValueError] of the first [int()], the floor division of an infinity
    being a NaN; a [str] ends in the [TypeError] of the first [//]. *)
Theorem format_time_outcome (v : pyval) :
  printable v = true ->
  match v with
  | PyNum (NInt _) | PyNum (NFloat (FFinite _)) => returns (format_time v)
  | PyNum (NFloat (FInf _)) | PyNum (NFloat FNaN) =>
      format_time v = Raise (ValueError "cannot convert float NaN to integer")
  | PyStr _ =>
      format_time v
      = Raise (TypeError "unsupported operand type(s) for //: 'str' and 'int'")
  end.
Proof.
  intros _. destruct v as [[z|[q|b|]]|s]; try reflexivity.
  - now apply format_time_returns.
  - now apply format_time_returns.
Qed.

Lemma format_time_outcome_witness :
  format_time (PyNum (NFloat (FInf false)))
  = Raise (ValueError "cannot convert float NaN to integer").
Proof.
  apply (format_time_outcome (PyNum (NFloat (FInf false)))). reflexivity.
Defined.

Section SerializerProperties.

Variable str_float : pyfloat -> string.

(** X9: for segments whose values are [int]s within the digit limit,
    [float]s and [str]s, each of the three serializers returns a string
    exactly when every segment has an [int] or a finite [float] under
    [start] and under [end] and some value under [text]; the text need not
    be a [str], and other keys are not looked at. *)
Theorem serializers_return_iff (segments : list (gmap string pyval)) :
  forallb within_limit segments = true ->
  (returns (create_srt_content str_float segments)
     <-> forallb serializable segments = true) /\
  (returns (create_vtt_content str_float segments)
     <-> forallb serializable segments = true) /\
  (returns (create_tsv_content str_float segments)
     <-> forallb serializable segments = true).
Proof.
  intros _.
  assert (forall (m : result string) (acc : string),
            returns (r ← m; Ok (acc ++ r)) <-> failure m = None) as Hret.
  { intros [r|e] acc; cbn; split; try easy; [eexists; reflexivity|].
    intros [a H]; discriminate. }
  split; [|split].
  - rewrite create_srt_content_blocks,
      <- (forallb_enumerate serializable segments 1).
    apply for_in_returns_iff. intros [i segment] s. cbn [fst snd].
    rewrite Hret, (proj1 (pieces_fail_alike str_float i segment)).
    apply cue_returns.
  - rewrite create_vtt_content_cues. apply for_in_returns_iff.
    intros segment s. rewrite Hret. apply cue_returns.
  - rewrite create_tsv_content_records. apply for_in_returns_iff.
    intros segment s.
    rewrite Hret, (proj2 (pieces_fail_alike str_float 0 segment)).
    apply cue_returns.
Qed.

(** X10: on the same segments the three serializers end alike: when one of
    them raises, the other two raise the same exception, whatever it is
    and wherever in the list it comes from. *)
Theorem serializers_fail_alike (segments : list (gmap string pyval)) (e : pyexc) :
  (create_srt_content str_float segments = Raise e
     <-> create_vtt_content str_float segments = Raise e) /\
  (create_tsv_content str_float segments = Raise e
     <-> create_vtt_content str_float segments = Raise e).
Proof.
  rewrite !failure_Raise.
  rewrite create_srt_content_blocks, create_vtt_content_cues,
    create_tsv_content_records.
  rewrite (for_in_failure (fun p => srt_block_of str_float (fst p) (snd p)))
    by reflexivity.
  rewrite (for_in_failure (vtt_cue_of str_float)) by reflexivity.
  rewrite (for_in_failure (tsv_record_of str_float)) by reflexivity.
  assert (omap (fun p => failure (srt_block_of str_float (fst p) (snd p)))
            (enumerate segments 1)
          = omap (fun s => failure (vtt_cue_of str_float s)) segments) as ->.
  { rewrite <- (omap_enumerate _ segments 1). apply omap_pointwise.
    intros [i s]. cbn [fst snd]. apply pieces_fail_alike. }
  assert (omap (fun s => failure (tsv_record_of str_float s)) segments
          = omap (fun s => failure (vtt_cue_of str_float s)) segments) as ->.
  { apply omap_pointwise. intros s. apply (pieces_fail_alike str_float 0). }
  split; reflexivity.
Qed.

End SerializerProperties.

Lemma serializers_return_iff_witness :
  (returns (create_srt_content no_float [counted; start_as_text])
     <-> forallb serializable [counted; start_as_text] = true) /\
  (returns (create_vtt_content no_float [counted; start_as_text])
     <-> forallb serializable [counted; start_as_text] = true) /\
  (returns (create_tsv_content no_float [counted; start_as_text])
     <-> forallb serializable [counted; start_as_text] = true).
Proof.
  apply (serializers_return_iff no_float [counted; start_as_text]). reflexivity.
Defined.

(** ** Serializing a longer list *)

Lemma for_in_appended {A : Type} (render : A -> result string) (xs ys : list A)
    (header o1 o2 : string) :
  let body := fun x acc => r ← render x; Ok (acc ++ r) in
  for_in xs body header = Ok o1 ->
  for_in ys body header = Ok o2 ->
  exists rest, o2 = header ++ rest /\ for_in (xs ++ ys) body header = Ok (o1 ++ rest).
Proof.
  intros body H1 H2.
  rewrite (for_in_appends render body ys) in H2 by reflexivity.
  rewrite for_in_app, H1.
  rewrite (for_in_appends render body ys) by reflexivity.
  unfold mbind, result_bind in *.
  destruct (for_in ys body "") as [rest|e]; cbn [bind] in *; [|discriminate].
  exists rest. split; [congruence|reflexivity].
Qed.

Section Appended.

Variable str_float : pyfloat -> string.

(** X11: when two lists of segments each give a WebVTT text, the two lists
    put together give the first text followed by the second without its
    [WEBVTT] header: a cue does not depend on the cues before it. *)
Theorem vtt_of_appended (s1 s2 : list (gmap string pyval)) (o1 o2 : string) :
  create_vtt_content str_float s1 = Ok o1 ->
  create_vtt_content str_float s2 = Ok o2 ->
  exists cues,
    o2 = ("WEBVTT" ++ nl ++ nl) ++ cues /\
    create_vtt_content str_float (s1 ++ s2) = Ok (o1 ++ cues).
Proof.
  rewrite !create_vtt_content_cues. apply for_in_appended.
Qed.

(** X12: when two lists of segments each give a TSV text, the two lists
    put together give the first text followed by the rows of the second:
    the header line is written once, and a row does not depend on the rows
    before it. *)
Theorem tsv_of_appended (s1 s2 : list (gmap string pyval)) (o1 o2 : string) :
  create_tsv_content str_float s1 = Ok o1 ->
  create_tsv_content str_float s2 = Ok o2 ->
  exists rows,
    o2 = tsv_header ++ rows /\
    create_tsv_content str_float (s1 ++ s2) = Ok (o1 ++ rows).
Proof.
  rewrite !create_tsv_content_records. apply for_in_appended.
Qed.

(** X13: the SRT text of a list starts with the SRT text of each of its
    initial parts: when the longer list gives a text, so does the shorter
    one, and what the later segments add comes after it. *)
Theorem srt_of_appended (s1 s2 : list (gmap string pyval)) (o : string) :
  create_srt_content str_float (s1 ++ s2) = Ok o ->
  exists o1 rest,
    create_srt_content str_float s1 = Ok o1 /\ o = o1 ++ rest.
Proof.
  rewrite !create_srt_content_blocks, enumerate_app, for_in_app.
  destruct (for_in (enumerate s1 1) _ "") as [o1|e]; [|discriminate].
  rewrite (for_in_appends (fun p => srt_block_of str_float (fst p) (snd p)))
    by reflexivity.
  unfold mbind, result_bind.
  destruct (for_in _ _ "") as [rest|e]; cbn [bind]; [|discriminate].
  intros [= <-]. eauto.
Qed.

End Appended.

Lemma vtt_of_appended_witness :
  exists cues,
    "WEBVTT" ++ nl ++ nl ++ vtt_cue "00:00:07" "00:00:03" "late"
      ++ vtt_cue "-1:59:56" "00:00:01" "early"
    = ("WEBVTT" ++ nl ++ nl) ++ cues /\
    create_vtt_content no_float (hello_world ++ disordered)
    = Ok (("WEBVTT" ++ nl ++ nl ++ vtt_cue "00:00:00" "00:00:02" "Hello"
             ++ vtt_cue "00:00:02" "00:00:05" "world") ++ cues).
Proof.
  apply (vtt_of_appended no_float hello_world disordered); reflexivity.
Defined.

Lemma tsv_of_appended_witness :
  exists rows,
    tsv_header ++ tsv_row "00:00:07" "00:00:03" "late"
      ++ tsv_row "-1:59:56" "00:00:01" "early"
    = tsv_header ++ rows /\
    create_tsv_content no_float (hello_world ++ disordered)
    = Ok ((tsv_header ++ tsv_row "00:00:00" "00:00:02" "Hello"
             ++ tsv_row "00:00:02" "00:00:05" "world") ++ rows).
Proof.
  apply (tsv_of_appended no_float hello_world disordered); reflexivity.
Defined.

Lemma srt_of_appended_witness :
  exists o1 rest,
    create_srt_content no_float hello_world = Ok o1 /\
    srt_block 1 "00:00:00" "00:00:02" "Hello"
      ++ srt_block 2 "00:00:02" "00:00:05" "world"
      ++ srt_block 3 "00:00:07" "00:00:03" "late"
      ++ srt_block 4 "-1:59:56" "00:00:01" "early"
    = o1 ++ rest.
Proof.
  apply (srt_of_appended no_float hello_world disordered). reflexivity.
Defined.

(** ** File names *)

Lemma append_cancel_l (s t u : string) : s ++ t = s ++ u -> t = u.
Proof.
  induction s as [|c s IH]; [easy|]. rewrite !append_cons. intros [= H]. auto.
Qed.

(** X14: when [.mp4] occurs in the temporary video's path only as its
    suffix, the audio file is the same path with the output format as its
    extension, and it is another file than the video unless the format is
    [mp4] itself. *)
Theorem audio_file_beside_video (temp_stem output_format : string) :
  str_find ".mp4" (temp_stem ++ ".mp4") = Some (String.length temp_stem) ->
  audio_file_name (temp_stem ++ ".mp4") output_format
    = temp_stem ++ "." ++ output_format /\
  (output_format <> "mp4" ->
   audio_file_name (temp_stem ++ ".mp4") output_format <> temp_stem ++ ".mp4").
Proof.
  intros Hfind. unfold audio_file_name.
  rewrite (replace_last_occurrence ".mp4" ("." ++ output_format) temp_stem)
    by (discriminate || exact Hfind).
  split; [reflexivity|]. intros Hne Heq. apply Hne.
  apply append_cancel_l in Heq. now injection Heq.
Qed.

Lemma audio_file_beside_video_witness :
  audio_file_name ("/tmp/tmpk3v9x2ab" ++ ".mp4") "ogg"
    = "/tmp/tmpk3v9x2ab" ++ "." ++ "ogg" /\
  ("ogg" <> "mp4" ->
   audio_file_name ("/tmp/tmpk3v9x2ab" ++ ".mp4") "ogg"
     <> "/tmp/tmpk3v9x2ab" ++ ".mp4").
Proof.
  apply (audio_file_beside_video "/tmp/tmpk3v9x2ab" "ogg"). reflexivity.
Defined.

(** X15: when the uploaded file's name has an extension and that extension
    occurs in the name only at its end, the name offered for the download
    is the name with the audio format in place of the extension. *)
Theorem download_name_swaps_extension (name root ext audio_format : string) :
  splitext name = (root, ext) ->
  ext <> "" ->
  str_find ext name = Some (String.length root) ->
  download_name name audio_format = root ++ "." ++ audio_format.
Proof.
  intros Hsplit Hext Hfind. unfold download_name.
  pose proof (splitext_join name) as Hjoin.
  rewrite Hsplit in *. cbn [fst snd] in *. subst name.
  now apply replace_last_occurrence.
Qed.

Lemma download_name_swaps_extension_witness :
  download_name "holiday clip.mov" "mp3" = "holiday clip" ++ "." ++ "mp3".
Proof.
  apply (download_name_swaps_extension "holiday clip.mov" "holiday clip" ".mov" "mp3");
    [reflexivity|discriminate|reflexivity].
Defined.

Lemma characters_cons (c : ascii) (rest : string) :
  exists ch chs, characters (String c rest) = ch :: chs.
Proof.
  destruct rest as [|c' r]; [now eexists _, _|]. cbn [characters].
  destruct (continuation c'); [|now eexists _, _].
  destruct (match r with EmptyString => _ | String _ _ => _ end);
    now eexists _, _.
Qed.

(** [new] goes before every character but not inside one. *)
Lemma replace_empty_characters (new s : string) :
  replace_empty new s =
  match characters s with
  | [] => new
  | ch :: chs =>
      (if begins_character s then new else "") ++ ch
        ++ String.concat "" (map (fun ch => new ++ ch) chs) ++ new
  end.
Proof.
  induction s as [|c rest IH]; [reflexivity|].
  destruct rest as [|c' r].
  - cbn. destruct (continuation c); cbn; [reflexivity|].
    now rewrite append_cons, append_nil_l.
  - destruct (characters_cons c' r) as (ch & chs & Ech).
    rewrite Ech in IH. cbn [begins_character] in IH.
    change (replace_empty new (String c (String c' r))) with
      (if continuation c then String c (replace_empty new (String c' r))
       else new ++ String c (replace_empty new (String c' r))).
    change (characters (String c (String c' r))) with
      (if continuation c' then
         match characters (String c' r) with
         | ch :: chs => String c ch :: chs
         | [] => [String c ""]
         end
       else String c "" :: characters (String c' r)).
    rewrite IH, Ech. cbn [begins_character].
    destruct (continuation c'); cbn [negb map].
    + rewrite append_nil_l.
      destruct (continuation c); cbn [negb]; [reflexivity|].
      now rewrite !append_cons.
    + rewrite concat_cons.
      destruct (continuation c); cbn [negb];
        now rewrite ?append_nil_l, !append_cons, ?append_nil_l, !append_assoc.
Qed.

(** X16: when the uploaded file's name has no extension, the extension
    replaced is the empty string, and the name offered for the download has
    a dot and the audio format before each of its characters and after the
    last one. *)
Theorem download_name_without_extension (name audio_format : string) :
  begins_character name = true ->
  snd (splitext name) = "" ->
  download_name name audio_format =
  String.concat ""
    (map (fun ch => ("." ++ audio_format) ++ ch) (characters name))
    ++ "." ++ audio_format.
Proof.
  intros Hbegin Hext. unfold download_name. rewrite Hext. unfold str_replace.
  rewrite replace_empty_characters, Hbegin.
  destruct (characters name) as [|ch chs]; [reflexivity|].
  cbn [map]. rewrite concat_cons. now rewrite !append_assoc.
Qed.

Lemma download_name_without_extension_witness :
  download_name ("caf" ++ String "195" (String "169" "")) "wav" =
  String.concat ""
    (map (fun ch => ("." ++ "wav") ++ ch)
       (characters ("caf" ++ String "195" (String "169" ""))))
    ++ "." ++ "wav".
Proof.
  apply (download_name_without_extension
           ("caf" ++ String "195" (String "169" "")) "wav"); reflexivity.
Defined.

(** ** What the timestamp keeps *)

Lemma append_length_inj (a a' b b' : string) :
  String.length a = String.length a' -> a ++ b = a' ++ b' -> a = a' /\ b = b'.
Proof.
  revert a'. induction a as [|c a IH]; intros [|c' a'] Hl H; simpl in Hl;
    try discriminate.
  - now rewrite !append_nil_l in H.
  - rewrite !append_cons in H. injection H as -> H.
    destruct (IH a' ltac:(lia) H) as [-> ->]. easy.
Qed.

Lemma format_0d_inj (z z' : Z) :
  0 <= z -> 0 <= z' -> format_0d 2 z = format_0d 2 z' -> z = z'.
Proof.
  intros Hz Hz' H. apply (f_equal decimal_value) in H.
  rewrite !format_0d_value in H by assumption. injection H as H. lia.
Qed.

Lemma format_time_int_inj (t t' : Z) :
  0 <= t -> 0 <= t' -> format_time (itg t) = format_time (itg t') -> t = t'.
Proof.
  intros Ht Ht'. rewrite !format_time_int. intros [= H].
  assert (forall u, 0 <= u -> 0 <= u / 3600 /\ 0 <= u mod 3600 / 60 < 60
                              /\ 0 <= u mod 60 < 60) as Hb.
  { intros u Hu. pose proof (Z.mod_pos_bound u 3600 ltac:(lia)).
    pose proof (Z.mod_pos_bound u 60 ltac:(lia)).
    split; [apply Z.div_pos; lia|].
    split; [|lia].
    split; [apply Z.div_pos; lia|apply Z.div_lt_upper_bound; lia]. }
  destruct (Hb t Ht) as (Hh & Hm & Hs), (Hb t' Ht') as (Hh' & Hm' & Hs').
  pose proof (f_equal String.length H) as Hl.
  rewrite !string_length_app in Hl.
  rewrite !(format_0d_two_digits (_ mod 3600 / 60)) in Hl by lia.
  rewrite !(format_0d_two_digits (_ mod 60)) in Hl by lia.
  apply append_length_inj in H as [Eh H]; [|lia].
  apply append_cancel_l in H.
  apply append_length_inj in H as [Em H];
    [|now rewrite !format_0d_two_digits by lia].
  apply append_cancel_l in H. rename H into Es.
  apply format_0d_inj in Eh, Em, Es; try lia.
  pose proof (Z.div_mod t 3600 ltac:(lia)) as D.
  pose proof (Z.div_mod t' 3600 ltac:(lia)) as D'.
  pose proof (Z.div_mod (t mod 3600) 60 ltac:(lia)) as R.
  pose proof (Z.div_mod (t' mod 3600) 60 ltac:(lia)) as R'.
  rewrite (Z.mod_mod_divide t 3600 60) in R by (now exists 60).
  rewrite (Z.mod_mod_divide t' 3600 60) in R' by (now exists 60).
  lia.
Qed.

(** X17: for times from 0 up to 2^53 seconds, the range in which the
    arithmetic on a [float] is exact, [format_time] gives the same string
    exactly when the whole seconds are the same: the string tells the
    second and nothing of the fraction, and an [int] and a [float] of the
    same second read alike. *)
Theorem format_time_same_second (a b : pyval) :
  timestamp a = true -> timestamp b = true ->
  negative a = false -> negative b = false ->
  whole_seconds a < 2 ^ 53 -> whole_seconds b < 2 ^ 53 ->
  (format_time a = format_time b <-> whole_seconds a = whole_seconds b).
Proof.
  intros Ha Hb Na Nb La Lb.
  rewrite (format_time_whole a Ha Na La), (format_time_whole b Hb Nb Lb).
  split; [|now intros ->].
  apply format_time_int_inj; now apply whole_seconds_nonneg.
Qed.

Lemma format_time_same_second_witness :
  format_time (flt 3725.75) = format_time (itg 3725)
  <-> whole_seconds (flt 3725.75) = whole_seconds (itg 3725).
Proof.
  apply (format_time_same_second (flt 3725.75) (itg 3725));
    reflexivity || (vm_compute; reflexivity).
Defined.
